(** * minimonk: a typed facade over the monk document-store driver

    Shallow embedding of the three module variants of the repository
    ([src/src/minimonk.ts], [src/unnamed/part_000], [src/unnamed/part_001])
    and the properties of identifier coercion, smart paging and the
    single-document lookups.

    Modelling conventions.
    - A JavaScript value is a term of [value]; an object literal is an
      association list in insertion order, an absent argument is
      [VUndefined].
    - A JavaScript [number] that carries a count, an offset or a sort
      direction is an integer of [Z] that is a double; arithmetic on numbers
      rounds to 53 significant bits, to nearest and ties to even, as
      doubles do, and a result of magnitude [2^1024] or more is an
      infinity.  NaN and fractions are outside the model.
    - A promise is a program [prog] that issues requests to the driver and
      resumes with the driver's answer; a rejected promise is the [inl]
      outcome of [run]. *)

From Stdlib Require Import ZArith NArith List String Ascii Bool Lia.
From Stdlib Require Import Permutation.
From Stdlib Require Import Strings.Byte.
Import ListNotations.
Open Scope string_scope.
Open Scope Z_scope.

Set Warnings "-register-all".

(* ================================================================== *)
(** ** The bson package: identifiers *)
(* ================================================================== *)

Module Bson.

(** Modelled from the spec: the [ObjectId] class of the bson package, which
    the sources import and which is not part of the repository.  An
    identifier is an opaque buffer of 12 bytes. *)
Record ObjectId : Type := MkObjectId { id : list byte }.

(** Value of one hexadecimal digit, either case. *)
Definition hex_val (c : ascii) : option N :=
  let n := N_of_ascii c in
  if ((48 <=? n) && (n <=? 57))%N then Some (n - 48)%N
  else if ((97 <=? n) && (n <=? 102))%N then Some (n - 87)%N
  else if ((65 <=? n) && (n <=? 70))%N then Some (n - 55)%N
  else None.

Definition is_hex (c : ascii) : bool :=
  match hex_val c with Some _ => true | None => false end.

(** The lowercase digit of a value below 16. *)
Definition hex_digit (n : N) : ascii :=
  if (n <? 10)%N then ascii_of_N (48 + n) else ascii_of_N (87 + n).

(** Modelled from the spec: [ObjectId.isValid] on a string, "a
    syntactically valid 24-character-hex identifier string". *)
Definition isValid (s : string) : bool :=
  (String.length s =? 24)%nat && forallb is_hex (list_ascii_of_string s).

Fixpoint parse_bytes (l : list ascii) : option (list byte) :=
  match l with
  | [] => Some []
  | hi :: lo :: rest =>
      match hex_val hi, hex_val lo, parse_bytes rest with
      | Some h, Some d, Some bs =>
          match Byte.of_N (16 * h + d) with
          | Some b => Some (b :: bs)
          | None => None
          end
      | _, _, _ => None
      end
  | _ :: [] => None
  end.

(** Modelled from the spec: [ObjectId.createFromHexString], the
    24-hex-character string to 12-byte identifier direction of the wire
    format.  [None] stands for the exception bson raises on a string it
    cannot decode. *)
Definition createFromHexString (s : string) : option ObjectId :=
  if (String.length s =? 24)%nat
  then option_map MkObjectId (parse_bytes (list_ascii_of_string s))
  else None.

Definition byte_hex (b : byte) : list ascii :=
  let n := Byte.to_N b in [hex_digit (n / 16); hex_digit (n mod 16)].

(** Modelled from the spec: [ObjectId.prototype.toHexString], the canonical
    string representation, "24-character lowercase hexadecimal string". *)
Definition toHexString (o : ObjectId) : string :=
  string_of_list_ascii (flat_map byte_hex (id o)).

(** Lowercasing of the letters A..Z, as [String.prototype.toLowerCase]
    acts on hexadecimal digits. *)
Definition lower_ascii (c : ascii) : ascii :=
  let n := N_of_ascii c in
  if ((65 <=? n) && (n <=? 90))%N then ascii_of_N (n + 32) else c.

Definition toLowerCase (s : string) : string :=
  string_of_list_ascii (map lower_ascii (list_ascii_of_string s)).

(** Big-endian number of the buffer: comparing two 12-byte identifiers
    byte by byte is comparing these numbers. *)
Definition to_N (o : ObjectId) : N :=
  fold_left (fun acc b => (256 * acc + Byte.to_N b)%N) (id o) 0%N.

End Bson.

(* ================================================================== *)
(** ** JavaScript values *)
(* ================================================================== *)

Inductive value : Type :=
| VUndefined
| VNull
| VBool (b : bool)
| VNum (n : Z)
| VStr (s : string)
| VId (o : Bson.ObjectId)
| VArr (items : list value)
| VObj (fields : list (string * value))
| VInfinity (negative : bool).

(** ToBoolean. *)
Definition truthy (v : value) : bool :=
  match v with
  | VUndefined | VNull => false
  | VBool b => b
  | VNum n => negb (n =? 0)
  | VStr s => negb (s =? "")%string
  | VId _ | VArr _ | VObj _ | VInfinity _ => true
  end.

(** [a || null]. *)
Definition or_null (v : value) : value := if truthy v then v else VNull.

(** [!!a]. *)
Definition to_bool (v : value) : value := VBool (truthy v).

(** Property read [o[k]]; [undefined] when absent or when [o] has no
    fields. *)
Fixpoint assoc (k : string) (l : list (string * value)) : value :=
  match l with
  | [] => VUndefined
  | (k', v) :: rest => if (k =? k')%string then v else assoc k rest
  end.

Definition get (k : string) (o : value) : value :=
  match o with
  | VObj fields => assoc k fields
  | _ => VUndefined
  end.

(** An argument of type [T | null | undefined]. *)
Inductive nullable (T : Type) : Type :=
| JUndefined
| JNull
| JSome (t : T).
Arguments JUndefined {T}.
Arguments JNull {T}.
Arguments JSome {T} t.

Definition of_nstring (a : nullable string) : value :=
  match a with JUndefined => VUndefined | JNull => VNull | JSome s => VStr s end.

Definition of_nnumber (a : nullable Z) : value :=
  match a with JUndefined => VUndefined | JNull => VNull | JSome n => VNum n end.

(** What a call that can throw yields: the exception or the value. *)
Inductive exn : Type :=
| JsError (message : string)     (* new Error(message) *)
| BsonError                      (* raised inside the bson package *)
| StoreError (payload : value).  (* a rejection coming from the driver *)

Definition outcome (A : Type) : Type := (exn + A)%type.

(* ================================================================== *)
(** ** Numbers *)
(* ================================================================== *)

(** The double nearest to an integer: an integer of at most 53 bits is a
    double; a longer one keeps its 53 leading bits, rounded to nearest on
    the bits dropped, ties to the even significand. *)
Definition round53 (z : Z) : Z :=
  let m := Z.abs z in
  let sh := Z.log2 m - 52 in
  if sh <=? 0 then z
  else
    let q := m / 2 ^ sh in
    let r := m mod 2 ^ sh in
    let half := 2 ^ (sh - 1) in
    let q' := if (half <? r) || ((r =? half) && Z.odd q) then q + 1 else q in
    Z.sgn z * (q' * 2 ^ sh).

(** The number a rounded result is: itself, or an infinity once its
    magnitude reaches [2^1024]. *)
Definition js_number (z : Z) : value :=
  if Z.abs z <? 2 ^ 1024 then VNum z else VInfinity (z <? 0).

(** [a - b] on doubles [a] and [b] (finite whenever [b] is small, as in
    [page - 1]). *)
Definition js_sub (a b : Z) : Z := round53 (a - b).

(** [a * b] on doubles. *)
Definition js_mul (a b : Z) : value := js_number (round53 (a * b)).

(* ================================================================== *)
(** ** Promises over the driver *)
(* ================================================================== *)

(** The methods of monk's [ICollection] that the facade calls. *)
Inductive request : Type :=
| Count (filter options : value)
| Find (filter options : value)
| FindOne (filter options : value)
| FindOneAndUpdate (filter update options : value)
| FindOneAndDelete (filter options : value).

(** An asynchronous method body: it returns, or awaits a driver call and
    goes on with the resolved value. *)
Inductive prog (A : Type) : Type :=
| Ret (a : A)
| Call (r : request) (k : value -> prog A).
Arguments Ret {A} a.
Arguments Call {A} r k.

Fixpoint bind {A B : Type} (p : prog A) (f : A -> prog B) : prog B :=
  match p with
  | Ret a => f a
  | Call r k => Call r (fun v => bind (k v) f)
  end.

Definition await (r : request) : prog value := Call r Ret.

Notation "x <- p ;; q" := (bind p (fun x => q))
  (at level 61, p at next level, right associativity).

(** A driver answers a request from its state: it resolves with a value or
    rejects, and moves to a new state. *)
Definition driver (S : Type) : Type := request -> S -> outcome value * S.

(** What running a method against a driver gives: the settled outcome, the
    final state of the store, and the requests issued, oldest first. *)
Record settled (S A : Type) : Type := MkSettled {
  result : outcome A;
  final : S;
  issued : list request
}.
Arguments MkSettled {S A} result final issued.
Arguments result {S A} s.
Arguments final {S A} s.
Arguments issued {S A} s.

Fixpoint run {S A : Type} (d : driver S) (p : prog A) (s : S) : settled S A :=
  match p with
  | Ret a => MkSettled (inr a) s []
  | Call r k =>
      match d r s with
      | (inl e, s') => MkSettled (inl e) s' [r]
      | (inr v, s') =>
          let t := run d (k v) s' in
          MkSettled (result t) (final t) (r :: issued t)
      end
  end.

(** The filter argument of a request. *)
Definition filter_of (r : request) : value :=
  match r with
  | Count f _ | Find f _ | FindOne f _
  | FindOneAndUpdate f _ _ | FindOneAndDelete f _ => f
  end.

(** The options argument of a request. *)
Definition options_of (r : request) : value :=
  match r with
  | Count _ o | Find _ o | FindOne _ o
  | FindOneAndUpdate _ _ o | FindOneAndDelete _ o => o
  end.

(** Object spread [...(v)] inside an object literal: the own fields of an
    object, nothing for [null], [undefined], a number, a boolean or the
    empty string. *)
Definition spread (v : value) : list (string * value) :=
  match v with
  | VObj fields => fields
  | _ => []
  end.

(** The computed key [[k]] of an object literal, for an argument typed
    [string | null | undefined] (ToPropertyKey). *)
Definition property_key (k : nullable string) : string :=
  match k with
  | JSome f => f
  | JNull => "null"
  | JUndefined => "undefined"
  end.

(** [a && b] on values. *)
Definition js_and (a b : value) : value := if truthy a then b else a.

(* ================================================================== *)
(** ** Callbacks: property reads and [Array.prototype.map] *)
(* ================================================================== *)

(** How the body of a [then] callback completes: normally, by a
    [TypeError] of the engine (the promise then rejects), or in a way the
    value model does not describe. *)
Inductive completion (A : Type) : Type :=
| Normal (a : A)
| TypeError
| NotModelled.
Arguments Normal {A} a.
Arguments TypeError {A}.
Arguments NotModelled {A}.

(** The property names every plain object inherits from
    [Object.prototype]. *)
Definition object_prototype_names : list string :=
  ["constructor"; "__proto__"; "hasOwnProperty"; "isPrototypeOf";
   "propertyIsEnumerable"; "toLocaleString"; "toString"; "valueOf";
   "__defineGetter__"; "__defineSetter__"; "__lookupGetter__";
   "__lookupSetter__"].

Definition inherited (key : string) : bool :=
  existsb (String.eqb key) object_prototype_names.

Definition own_field (key : string) (fields : list (string * value)) : bool :=
  existsb (fun kv => (fst kv =? key)%string) fields.

(** [document[key]]: a [TypeError] on [null] and [undefined]; on a plain
    object the own field, [undefined] when the object has no such field
    and inherits none of that name.  Inherited properties (functions) and
    the properties of strings, numbers, arrays and identifiers are not
    values of the model. *)
Definition member (key : string) (document : value) : completion value :=
  match document with
  | VUndefined | VNull => TypeError
  | VObj fields =>
      if own_field key fields then Normal (assoc key fields)
      else if inherited key then NotModelled
      else Normal VUndefined
  | _ => NotModelled
  end.

(** The elements of [list.map(f)]: the callback runs on the elements in
    order and the first abrupt completion ends the call. *)
Fixpoint array_map (f : value -> completion value) (l : list value)
    : completion (list value) :=
  match l with
  | [] => Normal []
  | x :: rest =>
      match f x with
      | Normal y =>
          match array_map f rest with
          | Normal ys => Normal (y :: ys)
          | TypeError => TypeError
          | NotModelled => NotModelled
          end
      | TypeError => TypeError
      | NotModelled => NotModelled
      end
  end.

(** [list.map(f)] on a value: only an array has a [map] to call. *)
Definition js_map (f : value -> completion value) (list : value)
    : completion value :=
  match list with
  | VArr l =>
      match array_map f l with
      | Normal ys => Normal (VArr ys)
      | TypeError => TypeError
      | NotModelled => NotModelled
      end
  | _ => TypeError
  end.

(* ================================================================== *)
(** ** The three module variants *)
(* ================================================================== *)

(** [ObjectId.createFromHexString(str)] as an expression that may throw. *)
Definition createFromHexString (s : string) : outcome value :=
  match Bson.createFromHexString s with
  | Some o => inr (VId o)
  | None => inl BsonError
  end.

(** [src/src/minimonk.ts] *)
Module Minimonk.

(** [str && ObjectID.isValid(str) ? ObjectID.createFromHexString(str) : null] *)
Definition idify (str : nullable string) : outcome value :=
  match str with
  | JSome s =>
      if truthy (VStr s) && Bson.isValid s
      then createFromHexString s
      else inr VNull
  | JNull | JUndefined => inr VNull
  end.

Definition count (filter options : value) : prog value :=
  await (Count filter options).

Definition exists_ (filter : value) : prog value :=
  count <- await (Count filter (VObj [("limit", VNum 1)])) ;;
  Ret (to_bool count).

Definition existsById (id : value) : prog value :=
  count <- await (Count (VObj [("_id", id)]) (VObj [("limit", VNum 1)])) ;;
  Ret (to_bool count).

Definition find (filter options : value) : prog value :=
  await (Find filter options).

Definition findOne (filter options : value) : prog value :=
  doc <- await (FindOne filter options) ;;
  Ret (or_null doc).

Definition findById (id options : value) : prog value :=
  doc <- await (FindOne (VObj [("_id", id)]) options) ;;
  Ret (or_null doc).

Definition findLastOne (filter : value) : prog value :=
  doc <- await (FindOne filter
                  (VObj [("sort", VObj [("_id", VNum (-1))]);
                         ("limit", VNum 1)])) ;;
  Ret (or_null doc).

Definition findSmartPage (filter : value) (search sort : nullable string)
    (sortOrder : nullable Z) (limit page : Z) : prog value :=
  let rootFilter :=
    VObj [("$and",
           VArr (filter ::
                 (if truthy (of_nstring search)
                  then [VObj [("$text", VObj [("$search", of_nstring search)])]]
                  else [])))] in
  total <- await (Count rootFilter VUndefined) ;;
  items <- await (Find rootFilter
                    (VObj (spread
                             (js_and (of_nstring sort)
                                (js_and (of_nnumber sortOrder)
                                   (VObj [("sort",
                                           VObj [(property_key sort,
                                                  of_nnumber sortOrder)])])))
                           ++ [("skip", js_mul (js_sub page 1) limit);
                               ("limit", VNum limit)]))) ;;
  Ret (VObj [("total", total); ("items", items)]).

Definition findOneAndUpdate (filter update options : value) : prog value :=
  doc <- await (FindOneAndUpdate filter update options) ;;
  Ret (or_null doc).

Definition findByIdAndSet (id set options : value) : prog value :=
  doc <- await (FindOneAndUpdate (VObj [("_id", id)])
                  (VObj [("$set", set)]) options) ;;
  Ret (or_null doc).

Definition findOneAndDelete (filter options : value) : prog value :=
  doc <- await (FindOneAndDelete filter options) ;;
  Ret (or_null doc).

Definition findByIdAndDelete (id options : value) : prog value :=
  doc <- await (FindOneAndDelete (VObj [("_id", id)]) options) ;;
  Ret (or_null doc).

(** [findAndMap]: the key is also the options argument of [find]. *)
Definition findAndMap (filter : value) (key : string)
    : prog (completion value) :=
  list <- await (Find filter (VStr key)) ;;
  Ret (js_map (fun document => member key document) list).

End Minimonk.

(** [src/unnamed/part_000] *)
Module Part000.

(** [id], on an argument of type [string | null]:
    [str && ObjectId.isValid(str) ? ObjectId.createFromHexString(str) : null] *)
Definition id (str : nullable string) : outcome value :=
  match str with
  | JSome s =>
      if truthy (VStr s) && Bson.isValid s
      then createFromHexString s
      else inr VNull
  | JNull | JUndefined => inr VNull
  end.

Definition count (query options : value) : prog value :=
  await (Count query options).

Definition exists_ (query : value) : prog value :=
  count <- await (Count query (VObj [("limit", VNum 1)])) ;;
  Ret (to_bool count).

Definition existsById (id : value) : prog value :=
  count <- await (Count (VObj [("_id", id)]) (VObj [("limit", VNum 1)])) ;;
  Ret (to_bool count).

Definition find (query options : value) : prog value :=
  await (Find query options).

Definition findOne (query options : value) : prog value :=
  doc <- await (FindOne query options) ;;
  Ret (or_null doc).

Definition findById (id options : value) : prog value :=
  doc <- await (FindOne (VObj [("_id", id)]) options) ;;
  Ret (or_null doc).

Definition findLastOne (query : value) : prog value :=
  doc <- await (FindOne query
                  (VObj [("sort", VObj [("_id", VNum (-1))]);
                         ("limit", VNum 1)])) ;;
  Ret (or_null doc).

Definition findSmartPage (query : value) (search sort : nullable string)
    (sortOrder : nullable Z) (limit page : Z) : prog value :=
  let rootQuery :=
    VObj [("$and",
           VArr (query ::
                 (if truthy (of_nstring search)
                  then [VObj [("$text", VObj [("$search", of_nstring search)])]]
                  else [])))] in
  total <- await (Count rootQuery VUndefined) ;;
  items <- await (Find rootQuery
                    (VObj (spread
                             (js_and (of_nstring sort)
                                (js_and (of_nnumber sortOrder)
                                   (VObj [("sort",
                                           VObj [(property_key sort,
                                                  of_nnumber sortOrder)])])))
                           ++ [("skip", js_mul (js_sub page 1) limit);
                               ("limit", VNum limit)]))) ;;
  Ret (VObj [("total", total); ("items", items)]).

Definition findOneAndUpdate (filter update options : value) : prog value :=
  doc <- await (FindOneAndUpdate filter update options) ;;
  Ret (or_null doc).

Definition findByIdAndSet (id set options : value) : prog value :=
  doc <- await (FindOneAndUpdate (VObj [("_id", id)])
                  (VObj [("$set", set)]) options) ;;
  Ret (or_null doc).

Definition findOneAndDelete (filter options : value) : prog value :=
  doc <- await (FindOneAndDelete filter options) ;;
  Ret (or_null doc).

Definition findByIdAndDelete (id options : value) : prog value :=
  doc <- await (FindOneAndDelete (VObj [("_id", id)]) options) ;;
  Ret (or_null doc).

(** [findAndMap]: the key is also the options argument of [find]. *)
Definition findAndMap (query : value) (key : string)
    : prog (completion value) :=
  list <- await (Find query (VStr key)) ;;
  Ret (js_map (fun document => member key document) list).

End Part000.

(** [src/unnamed/part_001] *)
Module Part001.

(** The exception of [idify]:
    [new Error(`Invalid hex value <${str}> passed to idify`)]. *)
Definition invalid_hex (s : string) : exn :=
  JsError ("Invalid hex value <" ++ s ++ "> passed to idify").

(** [idify]: the [instanceof ObjectId] safeguard, then the [typeof] test,
    then the validity test that throws, then the parse. *)
Definition idify (str : value) : outcome value :=
  match str with
  | VId o => inr (VId o)
  | VStr s =>
      if negb (Bson.isValid s) then inl (invalid_hex s)
      else createFromHexString s
  | _ => inr VNull
  end.

Definition count (filter options : value) : prog value :=
  await (Count filter options).

Definition exists_ (filter : value) : prog value :=
  count <- await (Count filter (VObj [("limit", VNum 1)])) ;;
  Ret (to_bool count).

Definition existsById (id : value) : prog value :=
  count <- await (Count (VObj [("_id", id)]) (VObj [("limit", VNum 1)])) ;;
  Ret (to_bool count).

Definition find (filter options : value) : prog value :=
  await (Find filter options).

Definition findOne (filter options : value) : prog value :=
  doc <- await (FindOne filter options) ;;
  Ret (or_null doc).

Definition findById (id options : value) : prog value :=
  doc <- await (FindOne (VObj [("_id", id)]) options) ;;
  Ret (or_null doc).

Definition findLastOne (filter : value) : prog value :=
  doc <- await (FindOne filter
                  (VObj [("sort", VObj [("_id", VNum (-1))]);
                         ("limit", VNum 1)])) ;;
  Ret (or_null doc).

Definition findSmartPage (filter : value) (search sort : nullable string)
    (sortOrder : nullable Z) (limit page : Z) : prog value :=
  let rootFilter :=
    VObj [("$and",
           VArr (filter ::
                 (if truthy (of_nstring search)
                  then [VObj [("$text", VObj [("$search", of_nstring search)])]]
                  else [])))] in
  total <- await (Count rootFilter VUndefined) ;;
  items <- await (Find rootFilter
                    (VObj (spread
                             (js_and (of_nstring sort)
                                (js_and (of_nnumber sortOrder)
                                   (VObj [("sort",
                                           VObj [(property_key sort,
                                                  of_nnumber sortOrder)])])))
                           ++ [("skip", js_mul (js_sub page 1) limit);
                               ("limit", VNum limit)]))) ;;
  Ret (VObj [("total", total); ("items", items)]).

Definition findOneAndUpdate (filter update options : value) : prog value :=
  doc <- await (FindOneAndUpdate filter update options) ;;
  Ret (or_null doc).

Definition findByIdAndSet (id set options : value) : prog value :=
  doc <- await (FindOneAndUpdate (VObj [("_id", id)])
                  (VObj [("$set", set)]) options) ;;
  Ret (or_null doc).

Definition findOneAndDelete (filter options : value) : prog value :=
  doc <- await (FindOneAndDelete filter options) ;;
  Ret (or_null doc).

Definition findByIdAndDelete (id options : value) : prog value :=
  doc <- await (FindOneAndDelete (VObj [("_id", id)]) options) ;;
  Ret (or_null doc).

(** [findAndMap]: the key is also the options argument of [find]. *)
Definition findAndMap (filter : value) (key : string)
    : prog (completion value) :=
  list <- await (Find filter (VStr key)) ;;
  Ret (js_map (fun document => member key document) list).

End Part001.

(** The three variants side by side. *)
Inductive variant : Type := SrcMinimonk | Unnamed000 | Unnamed001.

(** The methods of [Collection] that the properties below talk about. *)
Record facade : Type := MkFacade {
  f_existsById : value -> prog value;
  f_findOne : value -> value -> prog value;
  f_findById : value -> value -> prog value;
  f_findLastOne : value -> prog value;
  f_findSmartPage :
    value -> nullable string -> nullable string -> nullable Z -> Z -> Z ->
    prog value;
  f_findOneAndUpdate : value -> value -> value -> prog value;
  f_findByIdAndSet : value -> value -> value -> prog value;
  f_findOneAndDelete : value -> value -> prog value;
  f_findByIdAndDelete : value -> value -> prog value
}.

Definition facade_of (v : variant) : facade :=
  match v with
  | SrcMinimonk =>
      MkFacade Minimonk.existsById Minimonk.findOne Minimonk.findById
        Minimonk.findLastOne Minimonk.findSmartPage Minimonk.findOneAndUpdate
        Minimonk.findByIdAndSet Minimonk.findOneAndDelete
        Minimonk.findByIdAndDelete
  | Unnamed000 =>
      MkFacade Part000.existsById Part000.findOne Part000.findById
        Part000.findLastOne Part000.findSmartPage Part000.findOneAndUpdate
        Part000.findByIdAndSet Part000.findOneAndDelete
        Part000.findByIdAndDelete
  | Unnamed001 =>
      MkFacade Part001.existsById Part001.findOne Part001.findById
        Part001.findLastOne Part001.findSmartPage Part001.findOneAndUpdate
        Part001.findByIdAndSet Part001.findOneAndDelete
        Part001.findByIdAndDelete
  end.

(* ================================================================== *)
(** ** An in-memory store *)
(* ================================================================== *)

Module MemStore.

(** Modelled from the spec: the external document store behind monk's
    [ICollection], which is not part of the repository ("an abstract
    capability interface ... substitution in tests with an in-memory
    fake").  The store holds its documents in natural order; a query
    keeps the documents the filter matches, orders them by the [sort]
    option, drops [skip] of them and keeps at most [limit]; [count],
    [find] and [findOne] read the same cursor.  The spec words the store
    for a positive limit only; for the rest this store takes MongoDB's
    conventions, which are no part of the spec: a [limit] of 0 means no
    limit and a negative one counts by its absolute value.  An infinite
    skip leaves no document. *)
Section Store.

(** The query language is left open: [matches filter doc]. *)
Variable matches : value -> value -> bool.
(** So is the update language: [apply_update update doc]. *)
Variable apply_update : value -> value -> value.

Definition store : Type := list value.

Definition field_compare (a b : value) : comparison :=
  match a, b with
  | VNum x, VNum y => Z.compare x y
  | VStr x, VStr y => String.compare x y
  | VId x, VId y => N.compare (Bson.to_N x) (Bson.to_N y)
  | _, _ => Eq
  end.

Definition direction (dir : value) : Z :=
  match dir with VNum d => d | _ => 1 end.

(** [before spec a b]: under the sort specification [a] need not come
    after [b]. *)
Fixpoint before (spec : list (string * value)) (a b : value) : bool :=
  match spec with
  | [] => true
  | (k, dir) :: rest =>
      let c := field_compare (get k a) (get k b) in
      match (if direction dir <? 0 then CompOpp c else c) with
      | Lt => true
      | Gt => false
      | Eq => before rest a b
      end
  end.

Fixpoint insert (le : value -> value -> bool) (a : value)
    (l : list value) : list value :=
  match l with
  | [] => [a]
  | h :: t => if le a h then a :: h :: t else h :: insert le a t
  end.

(** Stable insertion sort. *)
Fixpoint isort (le : value -> value -> bool) (l : list value)
    : list value :=
  match l with
  | [] => []
  | a :: t => insert le a (isort le t)
  end.

Definition apply_sort (spec : value) (l : list value) : list value :=
  match spec with
  | VObj fields => isort (before fields) l
  | _ => l
  end.

Definition apply_skip (n : value) (l : list value) : list value :=
  match n with
  | VNum k => skipn (Z.to_nat k) l
  | VInfinity false => []
  | _ => l
  end.

Definition apply_limit (n : value) (l : list value) : list value :=
  match n with
  | VNum k => if k =? 0 then l else firstn (Z.to_nat (Z.abs k)) l
  | _ => l
  end.

(** The documents a query with these options yields, in order. *)
Definition cursor (filter options : value) (s : store) : list value :=
  apply_limit (get "limit" options)
    (apply_skip (get "skip" options)
       (apply_sort (get "sort" options)
          (List.filter (matches filter) s))).

(** Replace, or with [None] delete, the first document the filter
    matches. *)
Fixpoint amend_first (filter : value) (f : value -> option value)
    (s : store) : store :=
  match s with
  | [] => []
  | d :: t =>
      if matches filter d
      then match f d with Some d' => d' :: t | None => t end
      else d :: amend_first filter f t
  end.

Definition first_match (filter : value) (s : store) : value :=
  hd VNull (List.filter (matches filter) s).

(** Modelled from the spec: the answers of the store to the requests of
    the facade.  [findOne] answers with the first document of the cursor,
    [null] when there is none; the two writing requests act on the first
    matching document in stored order and do not read their options. *)
Definition driver : driver store :=
  fun r s =>
    match r with
    | Count filter options =>
        (inr (VNum (Z.of_nat (List.length (cursor filter options s)))), s)
    | Find filter options =>
        (inr (VArr (cursor filter options s)), s)
    | FindOne filter options =>
        (inr (hd VNull (cursor filter options s)), s)
    | FindOneAndUpdate filter update _ =>
        (inr (match first_match filter s with
              | VNull => VNull
              | d => apply_update update d
              end),
         amend_first filter (fun d => Some (apply_update update d)) s)
    | FindOneAndDelete filter _ =>
        (inr (first_match filter s),
         amend_first filter (fun _ => None) s)
    end.

End Store.

(** The [_id] of a document as a number, when it is an identifier. *)
Definition id_number (doc : value) : option N :=
  match get "_id" doc with
  | VId o => Some (Bson.to_N o)
  | _ => None
  end.

(** A document in the sense of the [Document] type: an object whose
    [_id] is an identifier. *)
Definition is_document (doc : value) : bool :=
  match doc, id_number doc with
  | VObj _, Some _ => true
  | _, _ => false
  end.

(** [a]'s identifier is at most [b]'s. *)
Definition id_le (a b : value) : Prop :=
  match id_number a, id_number b with
  | Some x, Some y => (x <= y)%N
  | _, _ => False
  end.

End MemStore.


(** The inputs on which the lenient coercion has nothing to parse: [null],
    [undefined], and a string that is not a valid identifier string. *)
Definition no_identifier (str : nullable string) : bool :=
  match str with
  | JSome s => negb (Bson.isValid s)
  | JNull | JUndefined => true
  end.

(* ================================================================== *)
(** ** Vocabulary of the properties *)
(* ================================================================== *)

(** [{ $and: [f1, ..., fn] }] *)
Definition conjunction (clauses : list value) : value :=
  VObj [("$and", VArr clauses)].

(** [{ $text: { $search: term } }] *)
Definition text_predicate (term : string) : value :=
  VObj [("$text", VObj [("$search", VStr term)])].

(** The filter a smart page sends to the store. *)
Definition effective_filter (filter : value) (search : nullable string)
    : value :=
  match search with
  | JSome term =>
      if (term =? "")%string then conjunction [filter]
      else conjunction [filter; text_predicate term]
  | JNull | JUndefined => conjunction [filter]
  end.

(** Both sort arguments are given and truthy: a non-empty field name and a
    direction other than 0. *)
Definition sorting_requested (sort : nullable string) (sortOrder : nullable Z)
    : bool :=
  match sort, sortOrder with
  | JSome field, JSome dir => negb (field =? "")%string && negb (dir =? 0)
  | _, _ => false
  end.

(** The options a smart page sends with its [find]. *)
Definition page_options (sort : nullable string) (sortOrder : nullable Z)
    (limit page : Z) : value :=
  VObj ((match sort, sortOrder with
         | JSome field, JSome dir =>
             if sorting_requested sort sortOrder
             then [("sort", VObj [(field, VNum dir)])]
             else []
         | _, _ => []
         end)
        ++ [("skip", js_mul (js_sub page 1) limit); ("limit", VNum limit)]).

(** Own-property test [k in o]. *)
Definition has_field (k : string) (o : value) : bool :=
  match o with
  | VObj fields => existsb (fun kv => (fst kv =? k)%string) fields
  | _ => false
  end.

(** The options of the [find] requests among the requests issued. *)
Definition find_options (l : list request) : list value :=
  flat_map (fun r => match r with Find _ o => [o] | _ => [] end) l.

(** A method that issues the one request [r] and maps the answer through
    [f]: what running it leaves. *)
Definition single_call {S : Type} (d : driver S) (s : S) (r : request)
    (f : value -> value) : settled S value :=
  MkSettled
    (match fst (d r s) with inl e => inl e | inr x => inr (f x) end)
    (snd (d r s)) [r].

(** The requests that look one document up. *)
Definition is_lookup (r : request) : bool :=
  match r with
  | FindOne _ _ | FindOneAndUpdate _ _ _ | FindOneAndDelete _ _ => true
  | Count _ _ | Find _ _ => false
  end.


(** Sample data: a document with a 12-byte identifier ending in [n], and a
    store in which every document matches every filter and an update
    leaves a document as it is. *)
Definition sample_doc (n : byte) (name : string) : value :=
  VObj [("_id", VId (Bson.MkObjectId (repeat x00 11 ++ [n])));
        ("name", VStr name)].

Definition sample_driver : driver (list value) :=
  MemStore.driver (fun _ _ => true) (fun _ doc => doc).

(** A store whose filters select by name: [{name: n}] matches the documents
    named [n], and a filter without a name matches nothing. *)
Definition by_name_driver : driver (list value) :=
  MemStore.driver
    (fun filter doc =>
       match get "name" filter, get "name" doc with
       | VStr wanted, VStr name => (wanted =? name)%string
       | _, _ => false
       end)
    (fun _ doc => doc).

(* ================================================================== *)
(** ** Method calls as data *)
(* ================================================================== *)

(** A call of a [Collection] method with its arguments. *)
Inductive invocation : Type :=
| ICount (filter options : value)
| IExists (filter : value)
| IExistsById (id : value)
| IFind (filter options : value)
| IFindOne (filter options : value)
| IFindById (id options : value)
| IFindLastOne (filter : value)
| IFindSmartPage (filter : value) (search sort : nullable string)
    (sortOrder : nullable Z) (limit page : Z)
| IFindOneAndUpdate (filter update options : value)
| IFindByIdAndSet (id set options : value)
| IFindOneAndDelete (filter options : value)
| IFindByIdAndDelete (id options : value).

(** The method body a call runs, in each variant. *)
Definition program (v : variant) (i : invocation) : prog value :=
  match v, i with
  | SrcMinimonk, ICount f o => Minimonk.count f o
  | SrcMinimonk, IExists f => Minimonk.exists_ f
  | SrcMinimonk, IExistsById id => Minimonk.existsById id
  | SrcMinimonk, IFind f o => Minimonk.find f o
  | SrcMinimonk, IFindOne f o => Minimonk.findOne f o
  | SrcMinimonk, IFindById id o => Minimonk.findById id o
  | SrcMinimonk, IFindLastOne f => Minimonk.findLastOne f
  | SrcMinimonk, IFindSmartPage f se so sd l p =>
      Minimonk.findSmartPage f se so sd l p
  | SrcMinimonk, IFindOneAndUpdate f u o => Minimonk.findOneAndUpdate f u o
  | SrcMinimonk, IFindByIdAndSet id set o => Minimonk.findByIdAndSet id set o
  | SrcMinimonk, IFindOneAndDelete f o => Minimonk.findOneAndDelete f o
  | SrcMinimonk, IFindByIdAndDelete id o => Minimonk.findByIdAndDelete id o
  | Unnamed000, ICount f o => Part000.count f o
  | Unnamed000, IExists f => Part000.exists_ f
  | Unnamed000, IExistsById id => Part000.existsById id
  | Unnamed000, IFind f o => Part000.find f o
  | Unnamed000, IFindOne f o => Part000.findOne f o
  | Unnamed000, IFindById id o => Part000.findById id o
  | Unnamed000, IFindLastOne f => Part000.findLastOne f
  | Unnamed000, IFindSmartPage f se so sd l p =>
      Part000.findSmartPage f se so sd l p
  | Unnamed000, IFindOneAndUpdate f u o => Part000.findOneAndUpdate f u o
  | Unnamed000, IFindByIdAndSet id set o => Part000.findByIdAndSet id set o
  | Unnamed000, IFindOneAndDelete f o => Part000.findOneAndDelete f o
  | Unnamed000, IFindByIdAndDelete id o => Part000.findByIdAndDelete id o
  | Unnamed001, ICount f o => Part001.count f o
  | Unnamed001, IExists f => Part001.exists_ f
  | Unnamed001, IExistsById id => Part001.existsById id
  | Unnamed001, IFind f o => Part001.find f o
  | Unnamed001, IFindOne f o => Part001.findOne f o
  | Unnamed001, IFindById id o => Part001.findById id o
  | Unnamed001, IFindLastOne f => Part001.findLastOne f
  | Unnamed001, IFindSmartPage f se so sd l p =>
      Part001.findSmartPage f se so sd l p
  | Unnamed001, IFindOneAndUpdate f u o => Part001.findOneAndUpdate f u o
  | Unnamed001, IFindByIdAndSet id set o => Part001.findByIdAndSet id set o
  | Unnamed001, IFindOneAndDelete f o => Part001.findOneAndDelete f o
  | Unnamed001, IFindByIdAndDelete id o => Part001.findByIdAndDelete id o
  end.

Definition findAndMap_of (v : variant) : value -> string -> prog (completion value) :=
  match v with
  | SrcMinimonk => Minimonk.findAndMap
  | Unnamed000 => Part000.findAndMap
  | Unnamed001 => Part001.findAndMap
  end.

(** The calls that only read: counting, testing and finding. *)
Definition reads_only (i : invocation) : bool :=
  match i with
  | IFindOneAndUpdate _ _ _ | IFindByIdAndSet _ _ _
  | IFindOneAndDelete _ _ | IFindByIdAndDelete _ _ => false
  | _ => true
  end.

(** The requests that change the store. *)
Definition is_write (r : request) : bool :=
  match r with
  | FindOneAndUpdate _ _ _ | FindOneAndDelete _ _ => true
  | Count _ _ | Find _ _ | FindOne _ _ => false
  end.

Definition is_smart_page (i : invocation) : bool :=
  match i with IFindSmartPage _ _ _ _ _ _ => true | _ => false end.

(** The single-document lookups. *)
Definition is_single_lookup (i : invocation) : bool :=
  match i with
  | IFindOne _ _ | IFindById _ _ | IFindLastOne _
  | IFindOneAndUpdate _ _ _ | IFindByIdAndSet _ _ _
  | IFindOneAndDelete _ _ | IFindByIdAndDelete _ _ => true
  | _ => false
  end.

(** The sort specification a smart page asks for, [undefined] for none. *)
Definition sort_spec (sort : nullable string) (sortOrder : nullable Z)
    : value :=
  match sort, sortOrder with
  | JSome field, JSome dir =>
      if sorting_requested sort sortOrder then VObj [(field, VNum dir)]
      else VUndefined
  | _, _ => VUndefined
  end.

(** The [items] and the [total] of a settled smart page. *)
Definition items_of (r : outcome value) : list value :=
  match r with
  | inr page => match get "items" page with VArr l => l | _ => [] end
  | inl _ => []
  end.

Definition total_of (r : outcome value) : option Z :=
  match r with
  | inr page => match get "total" page with VNum n => Some n | _ => None end
  | inl _ => None
  end.


(** An object of the model. *)
Definition is_object (v : value) : bool :=
  match v with VObj _ => true | _ => false end.

(* ================================================================== *)
(** ** Facts about identifiers *)
(* ================================================================== *)

Section BsonFacts.

Import Bson.

Lemma hex_val_digit (c : ascii) (n : N) :
  hex_val c = Some n -> (n < 16)%N /\ hex_digit n = lower_ascii c.
Proof.
  destruct c as [[] [] [] [] [] [] [] []]; vm_compute; intros E;
    try discriminate; injection E as <-; split; reflexivity.
Qed.

Lemma length_list_ascii (s : string) :
  List.length (list_ascii_of_string s) = String.length s.
Proof. induction s as [|c s IH]; simpl; congruence. Qed.

(** Induction two characters at a time. *)
Lemma pairs_ind (P : list ascii -> Prop) :
  P [] -> (forall c, P [c]) ->
  (forall hi lo rest, P rest -> P (hi :: lo :: rest)) ->
  forall l, P l.
Proof.
  intros H0 H1 H2.
  assert (both : forall l, P l /\ forall c, P (c :: l)).
  { induction l as [|c l [IHl IHc]]; split; auto. }
  intros l; apply both.
Qed.

Lemma byte_of_digits (h d : N) :
  (h < 16)%N -> (d < 16)%N ->
  exists b, Byte.of_N (16 * h + d) = Some b /\
            (Byte.to_N b / 16 = h)%N /\ (Byte.to_N b mod 16 = d)%N.
Proof.
  intros Hh Hd.
  destruct (Byte.of_N (16 * h + d)) as [b|] eqn:E.
  - exists b; split; [reflexivity|].
    apply Byte.to_of_N in E; rewrite E.
    replace (16 * h + d)%N with (d + h * 16)%N by lia.
    rewrite N.div_add by lia. rewrite N.Div0.mod_add.
    rewrite N.div_small, N.mod_small by lia. split; lia.
  - apply Byte.of_N_None_iff in E; lia.
Qed.

(** Decoding an even number of hexadecimal digits succeeds, and encoding
    the bytes back gives the digits in lowercase. *)
Lemma parse_bytes_hex (l : list ascii) :
  forallb is_hex l = true -> Nat.even (List.length l) = true ->
  exists bs, parse_bytes l = Some bs /\
             flat_map byte_hex bs = map lower_ascii l.
Proof.
  induction l as [| c | hi lo rest IH] using pairs_ind; intros Hx Hl.
  - exists []; split; reflexivity.
  - discriminate.
  - cbn [forallb] in Hx. apply andb_prop in Hx as [Hhi Hx].
    apply andb_prop in Hx as [Hlo Hx].
    unfold is_hex in Hhi, Hlo.
    destruct (hex_val hi) as [h|] eqn:Eh; [|discriminate].
    destruct (hex_val lo) as [d|] eqn:Ed; [|discriminate].
    destruct (IH Hx Hl) as (bs & Ebs & Hbs).
    destruct (hex_val_digit _ _ Eh) as [Hh Lh].
    destruct (hex_val_digit _ _ Ed) as [Hd Ld].
    destruct (byte_of_digits h d Hh Hd) as (b & Eb & Eq1 & Eq2).
    exists (b :: bs). cbn [parse_bytes]. rewrite Eh, Ed, Ebs, Eb.
    split; [reflexivity|].
    cbn [flat_map map app]. unfold byte_hex at 1.
    rewrite Eq1, Eq2, Lh, Ld, Hbs. reflexivity.
Qed.

Lemma isValid_parses (s : string) :
  isValid s = true ->
  exists o, Bson.createFromHexString s = Some o /\
            toHexString o = toLowerCase s.
Proof.
  unfold isValid, Bson.createFromHexString. intros H.
  apply andb_prop in H as [Hlen Hhex]. rewrite Hlen.
  destruct (parse_bytes_hex (list_ascii_of_string s) Hhex) as (bs & E & R).
  - rewrite length_list_ascii. apply Nat.eqb_eq in Hlen. rewrite Hlen.
    reflexivity.
  - exists (MkObjectId bs). rewrite E. split; [reflexivity|].
    unfold toHexString, toLowerCase. cbn [id]. rewrite R. reflexivity.
Qed.

Lemma isValid_not_empty (s : string) :
  isValid s = true -> truthy (VStr s) = true.
Proof. destruct s; [discriminate | reflexivity]. Qed.

End BsonFacts.

(* ================================================================== *)
(** ** Identifier coercion *)
(* ================================================================== *)

(** C3. Strict coercion ([idify] of part_001): [null] and [undefined] give
    [null]; an identifier instance is returned unchanged; a string that is
    not a valid 24-hex identifier string throws the error whose message
    quotes the string; a valid string is parsed and the identifier
    returned. *)
Theorem strict_idify_contract :
  Part001.idify VNull = inr VNull /\
  Part001.idify VUndefined = inr VNull /\
  (forall o, Part001.idify (VId o) = inr (VId o)) /\
  (forall s, Bson.isValid s = false ->
     Part001.idify (VStr s) =
       inl (JsError ("Invalid hex value <" ++ s ++ "> passed to idify"))) /\
  (forall s, Bson.isValid s = true ->
     exists o, Bson.createFromHexString s = Some o /\
               Part001.idify (VStr s) = inr (VId o)).
Proof.
  repeat split; try reflexivity.
  - intros s H. unfold Part001.idify. rewrite H. reflexivity.
  - intros s H. destruct (isValid_parses s H) as (o & E & _).
    exists o. split; [exact E|].
    unfold Part001.idify, createFromHexString. rewrite H, E. reflexivity.
Qed.

(** C4. Lenient coercion ([idify] of minimonk.ts, [id] of part_000): on
    [null], [undefined] and every string that is not a valid 24-hex
    identifier string the result is [null], and on no input of its type
    does it throw. *)
Theorem lenient_coercion_never_throws (str : nullable string) :
  (no_identifier str = true ->
     Minimonk.idify str = inr VNull /\ Part000.id str = inr VNull) /\
  (exists v, Minimonk.idify str = inr v) /\
  (exists v, Part000.id str = inr v).
Proof.
  assert (same : Part000.id str = Minimonk.idify str) by reflexivity.
  rewrite same.
  assert (total : exists v, Minimonk.idify str = inr v).
  { destruct str as [| |s]; try (exists VNull; reflexivity).
    unfold Minimonk.idify.
    destruct (Bson.isValid s) eqn:V.
    - destruct (isValid_parses s V) as (o & E & _).
      exists (VId o). rewrite (isValid_not_empty s V).
      unfold createFromHexString. rewrite E. reflexivity.
    - exists VNull. rewrite andb_false_r. reflexivity. }
  split; [|split; exact total].
  intros H. split; destruct str as [| |s]; try reflexivity;
    unfold Minimonk.idify; simpl in H;
    apply negb_true_iff in H; rewrite H, andb_false_r; reflexivity.
Qed.

(** C8, as the claim states it, fails on a valid string with uppercase
    digits: the identifier's string representation is in lowercase. *)
Lemma uppercase_hex_does_not_round_trip :
  Bson.isValid "ABCDEF0123456789ABCDEF01" = true /\
  exists o,
    Part001.idify (VStr "ABCDEF0123456789ABCDEF01") = inr (VId o) /\
    Bson.toHexString o = "abcdef0123456789abcdef01" /\
    (Bson.toHexString o = "ABCDEF0123456789ABCDEF01" -> False).
Proof.
  split; [reflexivity|].
  eexists. split; [vm_compute; reflexivity|].
  split; [reflexivity | discriminate].
Qed.

(** C8, amended. For every valid 24-hex string [s], strict coercion returns
    an identifier whose string representation is [s] in lowercase; it is
    [s] itself when [s] has no uppercase digit. *)
Theorem strict_idify_round_trip (s : string) :
  Bson.isValid s = true ->
  exists o,
    Part001.idify (VStr s) = inr (VId o) /\
    Bson.toHexString o = Bson.toLowerCase s /\
    (Bson.toLowerCase s = s -> Bson.toHexString o = s).
Proof.
  intros H. destruct (isValid_parses s H) as (o & E & R).
  exists o. repeat split.
  - unfold Part001.idify, createFromHexString. rewrite H, E. reflexivity.
  - exact R.
  - intros L. rewrite R. exact L.
Qed.

Lemma strict_idify_round_trip_witness :
  Bson.isValid "5f1d7f3a9c2b4e0012ab34cd" = true /\
  exists o,
    Part001.idify (VStr "5f1d7f3a9c2b4e0012ab34cd") = inr (VId o) /\
    Bson.toHexString o = Bson.toLowerCase "5f1d7f3a9c2b4e0012ab34cd" /\
    (Bson.toLowerCase "5f1d7f3a9c2b4e0012ab34cd" = "5f1d7f3a9c2b4e0012ab34cd" ->
     Bson.toHexString o = "5f1d7f3a9c2b4e0012ab34cd").
Proof.
  split; [reflexivity|].
  apply (strict_idify_round_trip "5f1d7f3a9c2b4e0012ab34cd"). reflexivity.
Defined.

(* ================================================================== *)
(** ** Running the methods *)
(* ================================================================== *)

Section Running.

Context {S : Type} (d : driver S).

Lemma run_then (r : request) (f : value -> value) (s : S) :
  run d (x <- await r ;; Ret (f x)) s = single_call d s r f.
Proof.
  unfold single_call. simpl. destruct (d r s) as [[e|x] s']; reflexivity.
Qed.

(** The code's filter and options of a smart page, in the vocabulary
    above. *)
Lemma root_filter_eq (filter : value) (search : nullable string) :
  VObj [("$and",
         VArr (filter ::
               (if truthy (of_nstring search)
                then [VObj [("$text", VObj [("$search", of_nstring search)])]]
                else [])))]
  = effective_filter filter search.
Proof.
  destruct search as [| |term]; try reflexivity.
  simpl. destruct (term =? "")%string; reflexivity.
Qed.

Lemma page_options_eq sort sortOrder limit page :
  VObj (spread
          (js_and (of_nstring sort)
             (js_and (of_nnumber sortOrder)
                (VObj [("sort",
                        VObj [(property_key sort, of_nnumber sortOrder)])])))
        ++ [("skip", js_mul (js_sub page 1) limit); ("limit", VNum limit)])
  = page_options sort sortOrder limit page.
Proof.
  unfold page_options, sorting_requested, js_and.
  destruct sort as [| |field]; try reflexivity;
    destruct sortOrder as [| |dir]; simpl;
    destruct (field =? "")%string; simpl; try reflexivity;
    destruct (dir =? 0); reflexivity.
Qed.

(** A smart page counts, then finds, with the same filter. *)
Lemma run_findSmartPage v filter search sort sortOrder limit page s :
  let root := effective_filter filter search in
  let opts := page_options sort sortOrder limit page in
  run d (f_findSmartPage (facade_of v) filter search sort sortOrder
           limit page) s
  = match d (Count root VUndefined) s with
    | (inl e, s1) => MkSettled (inl e) s1 [Count root VUndefined]
    | (inr total, s1) =>
        match d (Find root opts) s1 with
        | (inl e, s2) =>
            MkSettled (inl e) s2 [Count root VUndefined; Find root opts]
        | (inr items, s2) =>
            MkSettled (inr (VObj [("total", total); ("items", items)])) s2
              [Count root VUndefined; Find root opts]
        end
    end.
Proof.
  intros root opts.
  assert (E : f_findSmartPage (facade_of v) filter search sort sortOrder
                limit page
              = (total <- await (Count root VUndefined) ;;
                 items <- await (Find root opts) ;;
                 Ret (VObj [("total", total); ("items", items)]))).
  { destruct v; cbn [facade_of f_findSmartPage];
      unfold Minimonk.findSmartPage, Part000.findSmartPage,
        Part001.findSmartPage;
      cbv zeta; rewrite root_filter_eq, page_options_eq; reflexivity. }
  rewrite E. simpl.
  destruct (d (Count root VUndefined) s) as [[e|total] s1]; [reflexivity|].
  destruct (d (Find root opts) s1) as [[e|items] s2]; reflexivity.
Qed.

End Running.

(* ================================================================== *)
(** ** Smart pages *)
(* ================================================================== *)

(** Rounding to a double: exact up to [2^53], odd, and beyond [2^53]
    neither below [2^53] nor above twice its argument. *)
Lemma round53_exact (z : Z) : Z.abs z <= 2 ^ 53 -> round53 z = z.
Proof.
  intros H. unfold round53.
  destruct (Z.eq_dec (Z.abs z) (2 ^ 53)) as [E|N].
  - rewrite E. destruct z; cbn in E; try discriminate.
    + injection E as ->. reflexivity.
    + injection E as ->. reflexivity.
  - assert (L : Z.log2 (Z.abs z) < 53).
    { destruct (Z.eq_dec (Z.abs z) 0) as [Z0|NZ]; [rewrite Z0; reflexivity|].
      apply Z.log2_lt_pow2; lia. }
    cbv zeta.
    destruct (Z.leb_spec (Z.log2 (Z.abs z) - 52) 0); [reflexivity|lia].
Qed.

Lemma round53_opp (z : Z) : round53 (- z) = - round53 z.
Proof.
  unfold round53. rewrite Z.abs_opp, Z.sgn_opp. cbv zeta.
  destruct (Z.log2 (Z.abs z) - 52 <=? 0); [reflexivity|]. lia.
Qed.

Lemma round53_large (z : Z) :
  2 ^ 53 <= z -> 2 ^ 53 <= round53 z <= 2 * z.
Proof.
  intros H. unfold round53. cbv zeta.
  rewrite Z.abs_eq by lia. rewrite Z.sgn_pos by lia.
  destruct (Z.leb_spec (Z.log2 z - 52) 0) as [Hs|Hs]; [lia|].
  set (sh := Z.log2 z - 52) in *.
  assert (P : 0 < 2 ^ sh) by (apply Z.pow_pos_nonneg; lia).
  assert (P2 : 2 <= 2 ^ sh).
  { change 2 with (2 ^ 1) at 1. apply Z.pow_le_mono_r; lia. }
  pose proof (Z.log2_spec z ltac:(lia)) as [Lo Hi].
  assert (E : 2 ^ Z.log2 z = 2 ^ 52 * 2 ^ sh).
  { rewrite <- Z.pow_add_r by lia. f_equal. lia. }
  assert (Q : 2 ^ 52 <= z / 2 ^ sh).
  { apply Z.div_le_lower_bound; lia. }
  pose proof (Z.mul_div_le z (2 ^ sh) P) as M.
  set (q := z / 2 ^ sh) in *.
  destruct ((2 ^ (sh - 1) <? z mod 2 ^ sh)
            || ((z mod 2 ^ sh =? 2 ^ (sh - 1)) && Z.odd q)); nia.
Qed.

Lemma round53_small (z : Z) :
  z <= - 2 ^ 53 -> 2 * z <= round53 z <= - 2 ^ 53.
Proof.
  intros H. pose proof (round53_large (- z) ltac:(lia)) as B.
  rewrite round53_opp in B. lia.
Qed.

Lemma js_number_finite (z : Z) : Z.abs z < 2 ^ 1024 -> js_number z = VNum z.
Proof.
  intros H. unfold js_number.
  destruct (Z.ltb_spec (Z.abs z) (2 ^ 1024)); [reflexivity | lia].
Qed.

Lemma pow2_53_1024 : 2 ^ 53 < 2 ^ 1024.
Proof. apply Z.pow_lt_mono_r; lia. Qed.

(** The skip of a page is the exact product as long as that is no more
    than [2^53] in magnitude. *)
Lemma skip_exact (page limit : Z) :
  Z.abs ((page - 1) * limit) <= 2 ^ 53 ->
  js_mul (js_sub page 1) limit = VNum ((page - 1) * limit).
Proof.
  intros H. pose proof pow2_53_1024 as B. unfold js_mul, js_sub.
  destruct (Z.eq_dec limit 0) as [->|Hl].
  - rewrite !Z.mul_0_r. reflexivity.
  - assert (Hp : Z.abs (page - 1) <= 2 ^ 53) by nia.
    rewrite (round53_exact (page - 1) Hp), (round53_exact _ H).
    apply js_number_finite. lia.
Qed.

Lemma page_options_skip sort sortOrder limit page :
  get "skip" (page_options sort sortOrder limit page)
  = js_mul (js_sub page 1) limit.
Proof.
  unfold page_options.
  destruct sort; destruct sortOrder; try reflexivity.
  destruct (sorting_requested _ _); reflexivity.
Qed.

Lemma page_options_limit sort sortOrder limit page :
  get "limit" (page_options sort sortOrder limit page) = VNum limit.
Proof.
  unfold page_options.
  destruct sort; destruct sortOrder; try reflexivity.
  destruct (sorting_requested _ _); reflexivity.
Qed.

Lemma page_options_sort sort sortOrder limit page :
  has_field "sort" (page_options sort sortOrder limit page)
  = sorting_requested sort sortOrder.
Proof.
  unfold page_options.
  destruct sort; destruct sortOrder; try reflexivity.
  destruct (sorting_requested _ _); reflexivity.
Qed.

(** The [find] of a smart page, when there is one, carries the page
    options; there is one as soon as the count resolves. *)
Lemma smart_page_find_options {S : Type} (d : driver S) v filter search sort
    sortOrder limit page s :
  let t := run d (f_findSmartPage (facade_of v) filter search sort sortOrder
                    limit page) s in
  (forall o, In o (find_options (issued t)) ->
     o = page_options sort sortOrder limit page) /\
  (forall total s1,
     d (Count (effective_filter filter search) VUndefined) s = (inr total, s1) ->
     find_options (issued t) = [page_options sort sortOrder limit page]).
Proof.
  cbv zeta. rewrite run_findSmartPage. cbv zeta.
  destruct (d (Count _ VUndefined) s) as [[e|total] s1].
  - split; [intros o [] | intros ? ? [=]].
  - destruct (d (Find _ _) s1) as [[e|items] s2]; simpl;
      (split; [intros o [<-|[]]; reflexivity | reflexivity]).
Qed.

(** C1, as the claim states it, fails without a search term: the store
    receives the caller's filter inside [$and], not the filter itself. *)
Lemma no_search_still_wraps_filter :
  let t := run sample_driver
             (Minimonk.findSmartPage (VObj []) JNull JNull JNull 10 1) [] in
  map filter_of (issued t)
  = [VObj [("$and", VArr [VObj []])]; VObj [("$and", VArr [VObj []])]] /\
  (VObj [("$and", VArr [VObj []])] = VObj [] -> False).
Proof. split; [reflexivity | discriminate]. Qed.

(** C1, amended. Every request of [findSmartPage] carries the effective
    filter, which is always an [$and]: of the caller's filter and the
    full-text predicate on the search term when the term is a non-empty
    string, of the caller's filter alone when the term is [null],
    [undefined] or empty. *)
Theorem smart_page_effective_filter {S : Type} (d : driver S) (v : variant)
    (filter : value) (search sort : nullable string) (sortOrder : nullable Z)
    (limit page : Z) (s : S) :
  let t := run d (f_findSmartPage (facade_of v) filter search sort sortOrder
                    limit page) s in
  hd_error (issued t) = Some (Count (effective_filter filter search) VUndefined) /\
  Forall (fun r => filter_of r = effective_filter filter search) (issued t) /\
  (forall term, search = JSome term -> term <> "" ->
     effective_filter filter search =
       VObj [("$and",
              VArr [filter; VObj [("$text", VObj [("$search", VStr term)])]])]) /\
  (search = JNull \/ search = JUndefined \/ search = JSome "" ->
     effective_filter filter search = VObj [("$and", VArr [filter])]).
Proof.
  cbv zeta. rewrite run_findSmartPage. cbv zeta. repeat split.
  - destruct (d (Count _ VUndefined) s) as [[e|total] s1]; [reflexivity|].
    destruct (d (Find _ _) s1) as [[e|items] s2]; reflexivity.
  - destruct (d (Count _ VUndefined) s) as [[e|total] s1];
      [repeat constructor|].
    destruct (d (Find _ _) s1) as [[e|items] s2]; repeat constructor.
  - intros term -> Hne. unfold effective_filter.
    destruct (term =? "")%string eqn:E; [|reflexivity].
    apply String.eqb_eq in E. contradiction.
  - intros [-> | [-> | ->]]; reflexivity.
Qed.

(** C5, as the claim states it, fails for a direction other than 1 and -1:
    direction 2 with a sort field passes a sort clause to the store. *)
Lemma direction_two_still_sorts :
  let t := run sample_driver
             (Minimonk.findSmartPage (VObj []) JNull (JSome "name") (JSome 2)
                10 1) [] in
  find_options (issued t)
  = [VObj [("sort", VObj [("name", VNum 2)]);
           ("skip", VNum 0); ("limit", VNum 10)]].
Proof. reflexivity. Qed.

(** C5, amended. A sort clause is passed to the store if and only if both
    sort arguments are truthy: [sortField] a non-empty string and
    [sortDirection] a number other than 0; the clause is then
    [{sortField: sortDirection}].  So a direction of 1 or -1 with a
    non-empty field sorts, and a direction of 0, or an omitted field or
    direction, disables sorting whatever the other argument is. *)
Theorem smart_page_sort_clause {S : Type} (d : driver S) (v : variant)
    (filter : value) (search sort : nullable string) (sortOrder : nullable Z)
    (limit page : Z) (s : S) :
  let t := run d (f_findSmartPage (facade_of v) filter search sort sortOrder
                    limit page) s in
  (forall total s1,
     d (Count (effective_filter filter search) VUndefined) s = (inr total, s1) ->
     exists o, find_options (issued t) = [o]) /\
  (forall o, In o (find_options (issued t)) ->
     has_field "sort" o = sorting_requested sort sortOrder /\
     (forall field dir, sort = JSome field -> sortOrder = JSome dir ->
        field <> "" -> dir <> 0 ->
        get "sort" o = VObj [(field, VNum dir)]) /\
     (forall field dir, sort = JSome field -> sortOrder = JSome dir ->
        field <> "" -> dir = 1 \/ dir = -1 -> has_field "sort" o = true) /\
     (sortOrder = JSome 0 \/ sortOrder = JNull \/ sortOrder = JUndefined \/
      sort = JNull \/ sort = JUndefined -> has_field "sort" o = false)).
Proof.
  cbv zeta.
  destruct (smart_page_find_options d v filter search sort sortOrder limit
              page s) as [Hall Hone].
  split.
  - intros total s1 E. eexists. exact (Hone total s1 E).
  - intros o Ho. rewrite (Hall o Ho). rewrite page_options_sort.
    assert (nonempty : forall f : string, f <> "" -> (f =? "")%string = false).
    { intros f Hf. apply String.eqb_neq. exact Hf. }
    repeat split.
    + intros field dir -> -> Hf Hd. unfold page_options, sorting_requested.
      rewrite (nonempty field Hf).
      apply Z.eqb_neq in Hd. rewrite Hd. reflexivity.
    + intros field dir -> -> Hf Hd. unfold sorting_requested.
      rewrite (nonempty field Hf). destruct Hd as [-> | ->]; reflexivity.
    + intros H. unfold sorting_requested.
      destruct sort as [| |field]; try reflexivity.
      destruct sortOrder as [| |dir]; try reflexivity.
      destruct H as [H | [H | [H | [H | H]]]]; try discriminate.
      injection H as ->. apply andb_false_r.
Qed.




(* ================================================================== *)
(** ** The in-memory store: limits and order *)
(* ================================================================== *)

Section MemStoreFacts.


Section Order.

Variable le : value -> value -> bool.
Variable P : value -> Prop.
Hypothesis le_total :
  forall a b, P a -> P b -> le a b = true \/ le b a = true.
Hypothesis le_trans :
  forall a b c, P a -> P b -> P c ->
    le a b = true -> le b c = true -> le a c = true.

(** The head of the sorted list is an element that comes before every
    element. *)
Lemma isort_head (l : list value) :
  Forall P l ->
  match MemStore.isort le l with
  | [] => l = []
  | h :: _ => In h l /\ forall y, In y l -> le h y = true
  end.
Proof.
  induction l as [|a t IH]; intros HP; [reflexivity|].
  inversion HP as [|? ? Pa Pt]; subst. specialize (IH Pt).
  rewrite Forall_forall in Pt. cbn [MemStore.isort].
  destruct (MemStore.isort le t) as [|h r].
  - subst t. cbn. split; [now left|].
    intros y [<-|[]]. destruct (le_total a a Pa Pa); assumption.
  - destruct IH as [Hin Hleast]. cbn [MemStore.insert].
    destruct (le a h) eqn:Eah.
    + split; [now left|]. intros y [<-|Hy].
      * destruct (le_total a a Pa Pa); assumption.
      * apply (le_trans a h y); auto.
    + split; [now right|]. intros y [<-|Hy]; [|auto].
      destruct (le_total a h Pa (Pt h Hin)) as [E|E]; congruence.
Qed.

End Order.

(** Under [{_id: -1}] a document comes before another exactly when its
    identifier is at least the other's. *)
Lemma before_id_descending (a b : value) :
  MemStore.is_document a = true -> MemStore.is_document b = true ->
  (MemStore.before [("_id", VNum (-1))] a b = true <-> MemStore.id_le b a).
Proof.
  unfold MemStore.is_document, MemStore.id_le, MemStore.id_number.
  cbn [MemStore.before MemStore.direction].
  destruct a; try discriminate. destruct b; try discriminate.
  destruct (get "_id" (VObj fields)) eqn:Ea; try discriminate.
  destruct (get "_id" (VObj fields0)) eqn:Eb; try discriminate.
  intros _ _. cbn.
  destruct (N.compare_spec (Bson.to_N o) (Bson.to_N o0)); cbn;
    split; intros; try lia; try discriminate; reflexivity.
Qed.

Lemma latest_first (l : list value) :
  Forall (fun doc => MemStore.is_document doc = true) l ->
  match MemStore.isort (MemStore.before [("_id", VNum (-1))]) l with
  | [] => l = []
  | h :: _ => In h l /\ forall y, In y l -> MemStore.id_le y h
  end.
Proof.
  intros HP.
  pose proof (isort_head (MemStore.before [("_id", VNum (-1))])
                (fun doc => MemStore.is_document doc = true)) as H.
  specialize (fun t tr => H t tr l HP).
  rewrite Forall_forall in HP.
  assert (goal : match MemStore.isort (MemStore.before [("_id", VNum (-1))]) l with
                 | [] => l = []
                 | h :: _ => In h l /\
                     forall y, In y l ->
                       MemStore.before [("_id", VNum (-1))] h y = true
                 end).
  { apply H.
    - intros a b Pa Pb.
      rewrite (before_id_descending a b Pa Pb),
        (before_id_descending b a Pb Pa).
      unfold MemStore.is_document in Pa, Pb. unfold MemStore.id_le.
      destruct a; try discriminate; destruct b; try discriminate.
      destruct (MemStore.id_number (VObj fields)); try discriminate.
      destruct (MemStore.id_number (VObj fields0)); try discriminate.
      lia.
    - intros a b c Pa Pb Pc.
      rewrite (before_id_descending a b Pa Pb),
        (before_id_descending b c Pb Pc), (before_id_descending a c Pa Pc).
      unfold MemStore.id_le.
      destruct (MemStore.id_number a), (MemStore.id_number b),
        (MemStore.id_number c); try tauto. lia. }
  destruct (MemStore.isort _ l) as [|h r]; [exact goal|].
  destruct goal as [Hin Hle]. split; [exact Hin|].
  intros y Hy. apply (before_id_descending h y (HP h Hin) (HP y Hy)).
  exact (Hle y Hy).
Qed.

End MemStoreFacts.

(* ================================================================== *)
(** ** Page size *)
(* ================================================================== *)


(* ================================================================== *)
(** ** Lookups by identifier and absence *)
(* ================================================================== *)

(** C2, as the claim states it, fails: the by-identifier methods do not call
    the coercion.  On a malformed string the strict [idify] throws, yet the
    strict variant's [findById] sends the string itself to the store and
    resolves with [null] when the store finds nothing; the lenient variant's
    sends the string too, not the [null] its coercion gives, and its
    [existsById] resolves with [false]. *)
Lemma by_id_does_not_coerce :
  Part001.idify (VStr "not-an-id")
  = inl (JsError "Invalid hex value <not-an-id> passed to idify") /\
  Minimonk.idify (JSome "not-an-id") = inr VNull /\
  (let t := run sample_driver (Part001.findById (VStr "not-an-id") VUndefined)
              [] in
   result t = inr VNull /\
   issued t = [FindOne (VObj [("_id", VStr "not-an-id")]) VUndefined]) /\
  (let t := run sample_driver (Minimonk.findById (VStr "not-an-id") VUndefined)
              [] in
   result t = inr VNull /\
   issued t = [FindOne (VObj [("_id", VStr "not-an-id")]) VUndefined]) /\
  (let t := run sample_driver (Minimonk.existsById (VStr "not-an-id")) [] in
   result t = inr (VBool false) /\
   issued t = [Count (VObj [("_id", VStr "not-an-id")])
                 (VObj [("limit", VNum 1)])]).
Proof. repeat split. Qed.

(** C2, amended. In every variant each by-identifier method sends its
    identifier argument to the store as it was given, in the filter
    [{_id: id}], without running it through the coercion, and issues that
    one request; it resolves with the store's answer, [|| null] for
    [findById], [findByIdAndSet] and [findByIdAndDelete] and [!!] for
    [existsById], and rejects only when the store does.  The lenient and
    the strict variants do the same. *)
Theorem by_id_delegates_verbatim {S : Type} (d : driver S) (v : variant)
    (id set options : value) (s : S) :
  run d (f_findById (facade_of v) id options) s
  = single_call d s (FindOne (VObj [("_id", id)]) options) or_null /\
  run d (f_existsById (facade_of v) id) s
  = single_call d s (Count (VObj [("_id", id)]) (VObj [("limit", VNum 1)]))
      to_bool /\
  run d (f_findByIdAndSet (facade_of v) id set options) s
  = single_call d s
      (FindOneAndUpdate (VObj [("_id", id)]) (VObj [("$set", set)]) options)
      or_null /\
  run d (f_findByIdAndDelete (facade_of v) id options) s
  = single_call d s (FindOneAndDelete (VObj [("_id", id)]) options) or_null.
Proof.
  destruct v; repeat split; apply run_then.
Qed.

(** C9. Each single-document lookup ([findOne], [findById], [findLastOne],
    [findOneAndUpdate], [findByIdAndSet], [findOneAndDelete],
    [findByIdAndDelete]) makes its one request to the driver and, when the
    driver answers that request with an empty (falsy) result, resolves with
    [null] and does not reject; a truthy answer is resolved with as it is,
    and only a rejection of the driver rejects. *)
Theorem lookups_normalise_absence {S : Type} (d : driver S) (v : variant)
    (filter id update set options : value) (s : S) :
  let settles (p : prog value) (r : request) :=
    issued (run d p s) = [r] /\
    (forall x, fst (d r s) = inr x -> truthy x = false ->
       result (run d p s) = inr VNull) /\
    (forall x, fst (d r s) = inr x -> truthy x = true ->
       result (run d p s) = inr x) /\
    (forall e, fst (d r s) = inl e -> result (run d p s) = inl e) in
  settles (f_findOne (facade_of v) filter options) (FindOne filter options) /\
  settles (f_findById (facade_of v) id options)
    (FindOne (VObj [("_id", id)]) options) /\
  settles (f_findLastOne (facade_of v) filter)
    (FindOne filter
       (VObj [("sort", VObj [("_id", VNum (-1))]); ("limit", VNum 1)])) /\
  settles (f_findOneAndUpdate (facade_of v) filter update options)
    (FindOneAndUpdate filter update options) /\
  settles (f_findByIdAndSet (facade_of v) id set options)
    (FindOneAndUpdate (VObj [("_id", id)]) (VObj [("$set", set)]) options) /\
  settles (f_findOneAndDelete (facade_of v) filter options)
    (FindOneAndDelete filter options) /\
  settles (f_findByIdAndDelete (facade_of v) id options)
    (FindOneAndDelete (VObj [("_id", id)]) options).
Proof.
  cbv zeta.
  assert (one : forall r,
            issued (single_call d s r or_null) = [r] /\
            (forall x, fst (d r s) = inr x -> truthy x = false ->
               result (single_call d s r or_null) = inr VNull) /\
            (forall x, fst (d r s) = inr x -> truthy x = true ->
               result (single_call d s r or_null) = inr x) /\
            (forall e, fst (d r s) = inl e ->
               result (single_call d s r or_null) = inl e)).
  { intros r. unfold single_call, or_null. cbn [issued result].
    repeat split.
    - intros x -> F. rewrite F. reflexivity.
    - intros x -> T. rewrite T. reflexivity.
    - intros e ->. reflexivity. }
  destruct v;
    cbn [facade_of f_findOne f_findById f_findLastOne f_findOneAndUpdate
           f_findByIdAndSet f_findOneAndDelete f_findByIdAndDelete];
    [ unfold Minimonk.findOne, Minimonk.findById, Minimonk.findLastOne,
        Minimonk.findOneAndUpdate, Minimonk.findByIdAndSet,
        Minimonk.findOneAndDelete, Minimonk.findByIdAndDelete
    | unfold Part000.findOne, Part000.findById, Part000.findLastOne,
        Part000.findOneAndUpdate, Part000.findByIdAndSet,
        Part000.findOneAndDelete, Part000.findByIdAndDelete
    | unfold Part001.findOne, Part001.findById, Part001.findLastOne,
        Part001.findOneAndUpdate, Part001.findByIdAndSet,
        Part001.findOneAndDelete, Part001.findByIdAndDelete ];
    rewrite !run_then; repeat apply conj; apply one.
Qed.

Lemma lookups_normalise_absence_witness :
  result (run by_name_driver
            (f_findOne (facade_of Unnamed000) (VObj [("name", VStr "z")])
               VUndefined)
            [sample_doc x01 "a"; sample_doc x02 "b"])
  = inr VNull /\
  result (run by_name_driver
            (f_findOne (facade_of Unnamed000) (VObj [("name", VStr "b")])
               VUndefined)
            [sample_doc x01 "a"; sample_doc x02 "b"])
  = inr (sample_doc x02 "b").
Proof.
  split.
  - destruct (lookups_normalise_absence by_name_driver Unnamed000
                (VObj [("name", VStr "z")]) VNull VNull VNull VUndefined
                [sample_doc x01 "a"; sample_doc x02 "b"])
      as ((_ & absent & _) & _).
    apply (absent VNull); reflexivity.
  - destruct (lookups_normalise_absence by_name_driver Unnamed000
                (VObj [("name", VStr "b")]) VNull VNull VNull VUndefined
                [sample_doc x01 "a"; sample_doc x02 "b"])
      as ((_ & _ & found & _) & _).
    apply (found (sample_doc x02 "b")); reflexivity.
Defined.

(* ================================================================== *)
(** ** The last document *)
(* ================================================================== *)

(** C10. [findLastOne(filter)] issues one [findOne] with the filter and the
    options [{sort: {_id: -1}, limit: 1}]; on the in-memory store it
    resolves with the matching document whose [_id] is greatest, and with
    [null] when no document matches the filter. *)
Theorem findLastOne_greatest_id (v : variant)
    (matches : value -> value -> bool)
    (apply_update : value -> value -> value)
    (docs : list value) (filter : value) :
  Forall (fun doc => MemStore.is_document doc = true) docs ->
  let t := run (MemStore.driver matches apply_update)
             (f_findLastOne (facade_of v) filter) docs in
  issued t
  = [FindOne filter
       (VObj [("sort", VObj [("_id", VNum (-1))]); ("limit", VNum 1)])] /\
  ((forall doc, In doc docs -> matches filter doc = false) ->
     result t = inr VNull) /\
  (forall doc, In doc docs -> matches filter doc = true ->
     exists last,
       result t = inr last /\ In last docs /\ matches filter last = true /\
       forall other, In other docs -> matches filter other = true ->
         MemStore.id_le other last).
Proof.
  intros Hdocs. cbv zeta.
  assert (E : f_findLastOne (facade_of v) filter
              = (doc <- await (FindOne filter
                                 (VObj [("sort", VObj [("_id", VNum (-1))]);
                                        ("limit", VNum 1)])) ;;
                 Ret (or_null doc))) by (destruct v; reflexivity).
  rewrite E, run_then. unfold single_call. cbn [issued result fst].
  split; [reflexivity|].
  cbn [MemStore.driver fst].
  change (MemStore.cursor matches filter
            (VObj [("sort", VObj [("_id", VNum (-1))]); ("limit", VNum 1)])
            docs)
    with (firstn 1 (MemStore.isort (MemStore.before [("_id", VNum (-1))])
                      (List.filter (matches filter) docs))).
  assert (Hhits : Forall (fun doc => MemStore.is_document doc = true)
                    (List.filter (matches filter) docs)).
  { rewrite Forall_forall in *. intros x Hx. apply filter_In in Hx.
    apply Hdocs, Hx. }
  pose proof (latest_first _ Hhits) as Hlast.
  destruct (MemStore.isort _ (List.filter (matches filter) docs))
    as [|last rest] eqn:Esort.
  - split; [reflexivity|].
    intros doc Hin Hm. exfalso.
    assert (Hd : In doc (List.filter (matches filter) docs))
      by (apply filter_In; auto).
    rewrite Hlast in Hd. exact Hd.
  - destruct Hlast as [Hin Hle]. apply filter_In in Hin as [Hin Hm].
    split.
    + intros Hnone. rewrite (Hnone last Hin) in Hm. discriminate.
    + intros doc _ _. exists last. cbn [firstn hd].
      rewrite Forall_forall in Hdocs. pose proof (Hdocs last Hin) as Hdoc.
      repeat split; auto.
      * unfold or_null. unfold MemStore.is_document in Hdoc.
        destruct last; try discriminate. reflexivity.
      * intros other Ho Hmo. apply Hle. apply filter_In. auto.
Qed.

Lemma findLastOne_greatest_id_witness :
  Forall (fun doc => MemStore.is_document doc = true)
    [sample_doc x01 "a"; sample_doc x03 "c"; sample_doc x02 "b"] /\
  let t := run sample_driver (f_findLastOne (facade_of SrcMinimonk) (VObj []))
             [sample_doc x01 "a"; sample_doc x03 "c"; sample_doc x02 "b"] in
  result t = inr (sample_doc x03 "c") /\
  issued t
  = [FindOne (VObj [])
       (VObj [("sort", VObj [("_id", VNum (-1))]); ("limit", VNum 1)])] /\
  ((forall doc,
      In doc [sample_doc x01 "a"; sample_doc x03 "c"; sample_doc x02 "b"] ->
      (fun _ _ : value => true) (VObj []) doc = false) ->
     result t = inr VNull) /\
  (forall doc,
     In doc [sample_doc x01 "a"; sample_doc x03 "c"; sample_doc x02 "b"] ->
     (fun _ _ : value => true) (VObj []) doc = true ->
     exists last,
       result t = inr last /\
       In last [sample_doc x01 "a"; sample_doc x03 "c"; sample_doc x02 "b"] /\
       (fun _ _ : value => true) (VObj []) last = true /\
       forall other,
         In other [sample_doc x01 "a"; sample_doc x03 "c"; sample_doc x02 "b"] ->
         (fun _ _ : value => true) (VObj []) other = true ->
         MemStore.id_le other last).
Proof.
  assert (Hdocs : Forall (fun doc => MemStore.is_document doc = true)
            [sample_doc x01 "a"; sample_doc x03 "c"; sample_doc x02 "b"])
    by (repeat constructor).
  split; [exact Hdocs|].
  split; [reflexivity|].
  exact (findLastOne_greatest_id SrcMinimonk (fun _ _ => true)
           (fun _ doc => doc)
           [sample_doc x01 "a"; sample_doc x03 "c"; sample_doc x02 "b"]
           (VObj []) Hdocs).
Defined.

(* ================================================================== *)
(** ** Further properties of identifier coercion *)
(* ================================================================== *)

Section CoercionFacts.

Import Bson.

Lemma hex_val_lower (c : ascii) : hex_val (lower_ascii c) = hex_val c.
Proof. destruct c as [[] [] [] [] [] [] [] []]; reflexivity. Qed.

Lemma parse_bytes_lower (l : list ascii) :
  parse_bytes (map lower_ascii l) = parse_bytes l.
Proof.
  induction l as [| c | hi lo rest IH] using pairs_ind; try reflexivity.
  cbn [map parse_bytes]. rewrite !hex_val_lower, IH. reflexivity.
Qed.

Lemma parse_bytes_length (l : list ascii) (bs : list byte) :
  parse_bytes l = Some bs -> List.length l = (2 * List.length bs)%nat.
Proof.
  revert bs.
  induction l as [| c | hi lo rest IH] using pairs_ind; intros bs E.
  - injection E as <-. reflexivity.
  - discriminate.
  - cbn [parse_bytes] in E.
    destruct (hex_val hi); [|discriminate].
    destruct (hex_val lo); [|discriminate].
    destruct (parse_bytes rest) as [bs'|]; [|discriminate].
    destruct (Byte.of_N _); [|discriminate].
    injection E as <-. cbn [List.length]. rewrite (IH bs' eq_refl). lia.
Qed.

Lemma hex_val_hex_digit (n : N) :
  (n < 16)%N -> hex_val (hex_digit n) = Some n.
Proof.
  intros H. destruct n as [|p]; [reflexivity|].
  do 5 (destruct p as [p|p|]; try reflexivity; try lia).
Qed.

(** Decoding the lowercase digits of a buffer gives the buffer back. *)
Lemma parse_bytes_encode (bs : list byte) :
  parse_bytes (flat_map byte_hex bs) = Some bs /\
  forallb is_hex (flat_map byte_hex bs) = true /\
  List.length (flat_map byte_hex bs) = (2 * List.length bs)%nat.
Proof.
  induction bs as [|b bs (IHp & IHh & IHl)]; [repeat split|].
  pose proof (Byte.to_N_bounded b) as Hb.
  assert (Hhi : (Byte.to_N b / 16 < 16)%N)
    by (apply N.Div0.div_lt_upper_bound; lia).
  assert (Hlo : (Byte.to_N b mod 16 < 16)%N) by (apply N.mod_lt; lia).
  cbn [flat_map byte_hex app]. split; [|split].
  - cbn [parse_bytes]. rewrite !hex_val_hex_digit, IHp by assumption.
    rewrite <- N.div_mod by lia. rewrite Byte.of_to_N. reflexivity.
  - cbn [forallb]. rewrite IHh. unfold is_hex.
    rewrite !hex_val_hex_digit by assumption. reflexivity.
  - cbn [List.length]. rewrite IHl. lia.
Qed.

Lemma string_length_of_list (l : list ascii) :
  String.length (string_of_list_ascii l) = List.length l.
Proof. induction l as [|c l IH]; simpl; congruence. Qed.

End CoercionFacts.

(** X1. The strict [idify] is idempotent: coercing what it returned, an
    identifier or [null], returns it again. *)
Theorem strict_idify_idempotent (str result : value) :
  Part001.idify str = inr result -> Part001.idify result = inr result.
Proof.
  destruct str; cbn [Part001.idify]; try (intros [= <-]; reflexivity).
  destruct (negb (Bson.isValid s)); [discriminate|].
  unfold createFromHexString. destruct (Bson.createFromHexString s).
  - intros [= <-]. reflexivity.
  - discriminate.
Qed.

Lemma strict_idify_idempotent_witness :
  Part001.idify (VStr "5f1d7f3a9c2b4e0012ab34cd")
  = inr (VId (Bson.MkObjectId
                [x5f; x1d; x7f; x3a; x9c; x2b; x4e; x00; x12; xab; x34; xcd])) /\
  Part001.idify (VId (Bson.MkObjectId
                [x5f; x1d; x7f; x3a; x9c; x2b; x4e; x00; x12; xab; x34; xcd]))
  = inr (VId (Bson.MkObjectId
                [x5f; x1d; x7f; x3a; x9c; x2b; x4e; x00; x12; xab; x34; xcd])).
Proof.
  split; [reflexivity|].
  apply (strict_idify_idempotent (VStr "5f1d7f3a9c2b4e0012ab34cd")).
  reflexivity.
Defined.

(** X2. On an argument of the declared type the strict and the lenient
    coercions give the same result, except on a string that is not a valid
    identifier string, where the lenient ones return [null] and the strict
    one throws. *)
Theorem strict_differs_only_by_throwing (str : nullable string) :
  Part000.id str = Minimonk.idify str /\
  (Part001.idify (of_nstring str) = Minimonk.idify str \/
   exists s, str = JSome s /\ Bson.isValid s = false /\
             Minimonk.idify str = inr VNull /\
             Part001.idify (of_nstring str) = inl (Part001.invalid_hex s)).
Proof.
  split; [reflexivity|].
  destruct str as [| |s]; [left; reflexivity | left; reflexivity |].
  destruct (Bson.isValid s) eqn:V.
  - left. cbn [of_nstring Part001.idify Minimonk.idify].
    rewrite V, (isValid_not_empty s V). reflexivity.
  - right. exists s. cbn [of_nstring Part001.idify Minimonk.idify].
    rewrite V, andb_false_r. repeat split.
Qed.

(** X3. Two valid identifier strings coerce to the same identifier exactly
    when they are equal up to the case of their digits. *)
Theorem idify_injective_up_to_case (s1 s2 : string) :
  Bson.isValid s1 = true -> Bson.isValid s2 = true ->
  (Part001.idify (VStr s1) = Part001.idify (VStr s2) <->
   Bson.toLowerCase s1 = Bson.toLowerCase s2) /\
  (Minimonk.idify (JSome s1) = Minimonk.idify (JSome s2) <->
   Bson.toLowerCase s1 = Bson.toLowerCase s2).
Proof.
  intros V1 V2.
  destruct (isValid_parses s1 V1) as (o1 & E1 & R1).
  destruct (isValid_parses s2 V2) as (o2 & E2 & R2).
  assert (strict1 : Part001.idify (VStr s1) = inr (VId o1)).
  { cbn [Part001.idify]. unfold createFromHexString. rewrite V1, E1.
    reflexivity. }
  assert (strict2 : Part001.idify (VStr s2) = inr (VId o2)).
  { cbn [Part001.idify]. unfold createFromHexString. rewrite V2, E2.
    reflexivity. }
  assert (lenient1 : Minimonk.idify (JSome s1) = inr (VId o1)).
  { cbn [Minimonk.idify]. unfold createFromHexString.
    rewrite V1, (isValid_not_empty s1 V1), E1. reflexivity. }
  assert (lenient2 : Minimonk.idify (JSome s2) = inr (VId o2)).
  { cbn [Minimonk.idify]. unfold createFromHexString.
    rewrite V2, (isValid_not_empty s2 V2), E2. reflexivity. }
  assert (same : o1 = o2 <-> Bson.toLowerCase s1 = Bson.toLowerCase s2).
  { split.
    - intros <-. rewrite <- R1. exact R2.
    - intros L. unfold Bson.createFromHexString in E1, E2.
      apply andb_prop in V1 as [L1 _]. apply andb_prop in V2 as [L2 _].
      rewrite L1 in E1. rewrite L2 in E2.
      rewrite <- parse_bytes_lower in E1. rewrite <- parse_bytes_lower in E2.
      unfold Bson.toLowerCase in L.
      apply (f_equal list_ascii_of_string) in L.
      rewrite !list_ascii_of_string_of_list_ascii in L.
      rewrite L in E1. rewrite E1 in E2. injection E2 as ->. reflexivity. }
  rewrite strict1, strict2, lenient1, lenient2.
  split; (split; [intros [= H]; apply same, H
                 | intros H; apply same in H; rewrite H; reflexivity]).
Qed.

Lemma idify_injective_up_to_case_witness :
  Bson.isValid "5f1d7f3a9c2b4e0012AB34CD" = true /\
  Bson.isValid "5F1D7F3A9C2B4E0012ab34cd" = true /\
  (Part001.idify (VStr "5f1d7f3a9c2b4e0012AB34CD")
   = Part001.idify (VStr "5F1D7F3A9C2B4E0012ab34cd") <->
   Bson.toLowerCase "5f1d7f3a9c2b4e0012AB34CD"
   = Bson.toLowerCase "5F1D7F3A9C2B4E0012ab34cd") /\
  (Minimonk.idify (JSome "5f1d7f3a9c2b4e0012AB34CD")
   = Minimonk.idify (JSome "5F1D7F3A9C2B4E0012ab34cd") <->
   Bson.toLowerCase "5f1d7f3a9c2b4e0012AB34CD"
   = Bson.toLowerCase "5F1D7F3A9C2B4E0012ab34cd").
Proof.
  split; [reflexivity|]. split; [reflexivity|].
  apply (idify_injective_up_to_case "5f1d7f3a9c2b4e0012AB34CD"
           "5F1D7F3A9C2B4E0012ab34cd"); reflexivity.
Defined.

(** X4. The string representation of a 12-byte identifier is a valid
    identifier string, and every coercion maps it back to that identifier;
    the identifiers the coercions build from strings have 12 bytes. *)
Theorem idify_of_hex_string (o : Bson.ObjectId) :
  List.length (Bson.id o) = 12%nat ->
  Bson.isValid (Bson.toHexString o) = true /\
  Part001.idify (VStr (Bson.toHexString o)) = inr (VId o) /\
  Minimonk.idify (JSome (Bson.toHexString o)) = inr (VId o) /\
  Part000.id (JSome (Bson.toHexString o)) = inr (VId o) /\
  (forall s o', Part001.idify (VStr s) = inr (VId o') ->
     List.length (Bson.id o') = 12%nat).
Proof.
  intros H12. destruct o as [bs]. cbn [Bson.id] in H12.
  destruct (parse_bytes_encode bs) as (Ep & Eh & El).
  assert (V : Bson.isValid (Bson.toHexString (Bson.MkObjectId bs)) = true).
  { unfold Bson.isValid, Bson.toHexString. cbn [Bson.id].
    rewrite string_length_of_list, list_ascii_of_string_of_list_ascii.
    rewrite El, H12, Eh. reflexivity. }
  assert (C : Bson.createFromHexString (Bson.toHexString (Bson.MkObjectId bs))
              = Some (Bson.MkObjectId bs)).
  { unfold Bson.createFromHexString, Bson.toHexString. cbn [Bson.id].
    rewrite string_length_of_list, list_ascii_of_string_of_list_ascii.
    rewrite El, H12, Ep. reflexivity. }
  assert (L : Minimonk.idify (JSome (Bson.toHexString (Bson.MkObjectId bs)))
              = inr (VId (Bson.MkObjectId bs))).
  { cbn [Minimonk.idify]. unfold createFromHexString.
    rewrite V, (isValid_not_empty _ V), C. reflexivity. }
  split; [exact V|]. split.
  { cbn [Part001.idify]. unfold createFromHexString. rewrite V, C.
    reflexivity. }
  split; [exact L|]. split; [exact L|].
  intros s o'. cbn [Part001.idify].
  destruct (Bson.isValid s) eqn:Vs; [|discriminate]. cbn [negb].
  unfold createFromHexString, Bson.createFromHexString.
  apply andb_prop in Vs as [Ls _]. rewrite Ls.
  destruct (Bson.parse_bytes (list_ascii_of_string s)) as [bs'|] eqn:P;
    [|discriminate].
  cbn [option_map]. intros [= <-]. cbn [Bson.id].
  apply parse_bytes_length in P. rewrite length_list_ascii in P.
  apply Nat.eqb_eq in Ls. lia.
Qed.

Lemma idify_of_hex_string_witness :
  List.length (Bson.id (Bson.MkObjectId
     [x5f; x1d; x7f; x3a; x9c; x2b; x4e; x00; x12; xab; x34; xcd])) = 12%nat /\
  Part001.idify (VStr (Bson.toHexString (Bson.MkObjectId
     [x5f; x1d; x7f; x3a; x9c; x2b; x4e; x00; x12; xab; x34; xcd])))
  = inr (VId (Bson.MkObjectId
     [x5f; x1d; x7f; x3a; x9c; x2b; x4e; x00; x12; xab; x34; xcd])).
Proof.
  split; [reflexivity|].
  apply (idify_of_hex_string (Bson.MkObjectId
     [x5f; x1d; x7f; x3a; x9c; x2b; x4e; x00; x12; xab; x34; xcd])).
  reflexivity.
Defined.

(* ================================================================== *)
(** ** Every method, every variant *)
(* ================================================================== *)

Lemma run_await {S : Type} (d : driver S) (r : request) (s : S) :
  run d (await r) s = single_call d s r (fun x => x).
Proof.
  unfold single_call, await. simpl. destruct (d r s) as [[e|x] s']; reflexivity.
Qed.

Lemma program_smart_page v filter search sort sortOrder limit page :
  program v (IFindSmartPage filter search sort sortOrder limit page)
  = f_findSmartPage (facade_of v) filter search sort sortOrder limit page.
Proof. destruct v; reflexivity. Qed.

(** Unfolds the body of a method other than [findSmartPage]. *)
Ltac unfold_method :=
  unfold Minimonk.count, Minimonk.exists_, Minimonk.existsById, Minimonk.find,
    Minimonk.findOne, Minimonk.findById, Minimonk.findLastOne,
    Minimonk.findOneAndUpdate, Minimonk.findByIdAndSet,
    Minimonk.findOneAndDelete, Minimonk.findByIdAndDelete,
    Part000.count, Part000.exists_, Part000.existsById, Part000.find,
    Part000.findOne, Part000.findById, Part000.findLastOne,
    Part000.findOneAndUpdate, Part000.findByIdAndSet,
    Part000.findOneAndDelete, Part000.findByIdAndDelete,
    Part001.count, Part001.exists_, Part001.existsById, Part001.find,
    Part001.findOne, Part001.findById, Part001.findLastOne,
    Part001.findOneAndUpdate, Part001.findByIdAndSet,
    Part001.findOneAndDelete, Part001.findByIdAndDelete.

(** A method other than [findSmartPage] is one request and a map of its
    answer. *)
Lemma run_simple_method {S : Type} (d : driver S) v i s :
  is_smart_page i = false ->
  exists r f,
    run d (program v i) s = single_call d s r f /\
    (reads_only i = true -> is_write r = false) /\
    (is_single_lookup i = true -> is_lookup r = true /\ f = or_null).
Proof.
  intros Hi.
  destruct i; try discriminate; destruct v; cbn [program]; unfold_method;
    rewrite ?run_then, ?run_await;
    eexists; eexists; (split; [reflexivity|]);
    (split; intros H;
       [first [reflexivity | discriminate H]
       | first [discriminate H | split; reflexivity]]).
Qed.

(** X5. The methods that only read (count, exists, existsById, find,
    findOne, findById, findLastOne, findSmartPage) never send the store a
    request that changes it; every method makes exactly one request, except
    [findSmartPage], which makes one or two. *)
Theorem reads_never_write {S : Type} (d : driver S) (v : variant)
    (i : invocation) (s : S) :
  let t := run d (program v i) s in
  (is_smart_page i = false -> List.length (issued t) = 1%nat) /\
  (1 <= List.length (issued t) <= 2)%nat /\
  (reads_only i = true -> Forall (fun r => is_write r = false) (issued t)).
Proof.
  cbv zeta. destruct (is_smart_page i) eqn:Hi.
  - destruct i; try discriminate. rewrite program_smart_page.
    rewrite run_findSmartPage. cbv zeta.
    destruct (d (Count _ VUndefined) s) as [[e|total] s1].
    + cbn. repeat split; try lia; try discriminate. repeat constructor.
    + destruct (d (Find _ _) s1) as [[e|items] s2]; cbn;
        (repeat split; try lia; try discriminate; repeat constructor).
  - destruct (run_simple_method d v i s Hi) as (r & f & E & Hr & _).
    rewrite E. cbn. repeat split; try lia.
    intros H. constructor; [auto | constructor].
Qed.

(** X7. A single-document lookup makes one lookup request and settles as
    the driver does: it rejects with the driver's error, resolves with the
    driver's document unchanged when that is truthy and with [null]
    otherwise, and leaves the store as the driver left it. *)
Theorem lookup_settles_as_driver {S : Type} (d : driver S) (v : variant)
    (i : invocation) (s : S) :
  is_single_lookup i = true ->
  let t := run d (program v i) s in
  exists r,
    issued t = [r] /\ is_lookup r = true /\ final t = snd (d r s) /\
    (forall e, fst (d r s) = inl e -> result t = inl e) /\
    (forall doc, fst (d r s) = inr doc -> truthy doc = true ->
       result t = inr doc) /\
    (forall doc, result t = inr doc -> doc <> VNull ->
       fst (d r s) = inr doc).
Proof.
  intros Hi. cbv zeta.
  assert (Hs : is_smart_page i = false) by (destruct i; try discriminate; reflexivity).
  destruct (run_simple_method d v i s Hs) as (r & f & E & _ & Hl).
  destruct (Hl Hi) as [Hr ->]. rewrite E. exists r.
  unfold single_call. cbn [issued final result].
  repeat split; auto.
  - intros e ->. reflexivity.
  - intros doc -> T. unfold or_null. rewrite T. reflexivity.
  - intros doc. destruct (fst (d r s)) as [e|x]; [discriminate|].
    unfold or_null. destruct (truthy x); intros [= <-]; congruence.
Qed.

Lemma lookup_settles_as_driver_witness :
  is_single_lookup (IFindLastOne (VObj [])) = true /\
  let t := run sample_driver (program Unnamed001 (IFindLastOne (VObj [])))
             [sample_doc x01 "a"; sample_doc x02 "b"] in
  result t = inr (sample_doc x02 "b") /\
  exists r,
    issued t = [r] /\ is_lookup r = true /\
    final t = snd (sample_driver r [sample_doc x01 "a"; sample_doc x02 "b"]) /\
    (forall e,
       fst (sample_driver r [sample_doc x01 "a"; sample_doc x02 "b"]) = inl e ->
       result t = inl e) /\
    (forall doc,
       fst (sample_driver r [sample_doc x01 "a"; sample_doc x02 "b"]) = inr doc ->
       truthy doc = true -> result t = inr doc) /\
    (forall doc, result t = inr doc -> doc <> VNull ->
       fst (sample_driver r [sample_doc x01 "a"; sample_doc x02 "b"]) = inr doc).
Proof.
  split; [reflexivity|]. split; [reflexivity|].
  apply (lookup_settles_as_driver sample_driver Unnamed001
           (IFindLastOne (VObj [])) [sample_doc x01 "a"; sample_doc x02 "b"]).
  reflexivity.
Defined.

(* ================================================================== *)
(** ** The methods on the in-memory store *)
(* ================================================================== *)

Section OnMemStore.

Variable matches : value -> value -> bool.
Variable apply_update : value -> value -> value.

Let store_driver : driver (list value) := MemStore.driver matches apply_update.

Lemma insert_perm le a l : Permutation (MemStore.insert le a l) (a :: l).
Proof.
  induction l as [|h t IH]; cbn [MemStore.insert]; [reflexivity|].
  destruct (le a h); [reflexivity|].
  rewrite IH. apply perm_swap.
Qed.

Lemma isort_perm le l : Permutation (MemStore.isort le l) l.
Proof.
  induction l as [|a t IH]; cbn [MemStore.isort]; [reflexivity|].
  rewrite insert_perm. constructor. exact IH.
Qed.

Lemma apply_sort_perm spec l : Permutation (MemStore.apply_sort spec l) l.
Proof. destruct spec; cbn; try reflexivity. apply isort_perm. Qed.

Lemma cursor_plain filter (docs : list value) :
  MemStore.cursor matches filter VUndefined docs
  = List.filter (matches filter) docs.
Proof. reflexivity. Qed.

Lemma some_match (p : value -> bool) (l : list value) :
  negb (Z.of_nat (List.length (firstn 1 (List.filter p l))) =? 0)
  = existsb p l.
Proof.
  induction l as [|x l IH]; [reflexivity|].
  cbn [List.filter existsb]. destruct (p x); [reflexivity | exact IH].
Qed.


Lemma run_exists v filter docs :
  run store_driver (program v (IExists filter)) docs
  = MkSettled (inr (VBool (existsb (matches filter) docs))) docs
      [Count filter (VObj [("limit", VNum 1)])].
Proof.
  assert (E : program v (IExists filter)
              = (count <- await (Count filter (VObj [("limit", VNum 1)])) ;;
                 Ret (to_bool count))) by (destruct v; reflexivity).
  rewrite E, run_then. unfold single_call, store_driver.
  cbn [MemStore.driver fst snd]. unfold MemStore.cursor.
  cbn [get assoc String.eqb Ascii.eqb Bool.eqb MemStore.apply_sort
         MemStore.apply_skip MemStore.apply_limit Z.eqb Z.abs Z.to_nat
         Pos.to_nat Pos.iter_op Nat.add].
  unfold to_bool. cbn [truthy]. rewrite some_match. reflexivity.
Qed.

End OnMemStore.

(** X8. On the in-memory store [exists(filter)] resolves with [true]
    exactly when a stored document matches the filter, and
    [existsById(id)] does so for the filter [{_id: id}]; neither changes the
    store. *)
Theorem exists_iff_some_match (v : variant)
    (matches : value -> value -> bool)
    (apply_update : value -> value -> value)
    (docs : list value) (filter id : value) :
  let d := MemStore.driver matches apply_update in
  result (run d (program v (IExists filter)) docs)
  = inr (VBool (existsb (matches filter) docs)) /\
  final (run d (program v (IExists filter)) docs) = docs /\
  run d (program v (IExistsById id)) docs
  = run d (program v (IExists (VObj [("_id", id)]))) docs.
Proof.
  cbv zeta. rewrite run_exists. repeat split.
Qed.





(* ================================================================== *)
(** ** Smart pages on the in-memory store *)
(* ================================================================== *)

Lemma page_options_sort_spec sort sortOrder limit page :
  get "sort" (page_options sort sortOrder limit page)
  = sort_spec sort sortOrder.
Proof.
  unfold page_options, sort_spec.
  destruct sort as [| |field]; try reflexivity;
    destruct sortOrder as [| |dir]; try reflexivity.
  destruct (sorting_requested (JSome field) (JSome dir)); reflexivity.
Qed.

Lemma firstn_plus (a b : nat) (l : list value) :
  firstn (a + b) l = (firstn a l ++ firstn b (skipn a l))%list.
Proof.
  revert l. induction a as [|a IH]; intros l; [reflexivity|].
  destruct l as [|x l]; cbn [Nat.add firstn skipn app].
  - rewrite firstn_nil. reflexivity.
  - rewrite IH. reflexivity.
Qed.

Lemma in_page (x : value) (k j : nat) (l : list value) :
  In x (firstn k (skipn j l)) -> In x l.
Proof.
  intros H. rewrite <- (firstn_skipn j l). apply in_or_app. right.
  rewrite <- (firstn_skipn k (skipn j l)). apply in_or_app. now left.
Qed.

(** On a store of at most [2^53] documents the doubles of the skip make no
    difference: the store drops as many documents as for the exact
    product. *)
Lemma skip_on_store (page limit : Z) (l : list value) :
  1 <= page -> 1 <= limit -> Z.of_nat (List.length l) <= 2 ^ 53 ->
  MemStore.apply_skip (js_mul (js_sub page 1) limit) l
  = skipn (Z.to_nat ((page - 1) * limit)) l.
Proof.
  intros Hp Hl Hlen.
  destruct (Z.le_gt_cases ((page - 1) * limit) (2 ^ 53)) as [Hs|Hb].
  - rewrite skip_exact by (rewrite Z.abs_eq; nia). reflexivity.
  - rewrite (skipn_all2 l) by lia.
    assert (Ha : 0 <= js_sub page 1 /\
                 2 ^ 53 <= js_sub page 1 * limit).
    { unfold js_sub.
      destruct (Z.le_gt_cases (page - 1) (2 ^ 53)) as [Hx|Hx].
      - rewrite round53_exact by (rewrite Z.abs_eq; lia). lia.
      - pose proof (round53_large (page - 1) ltac:(lia)). nia. }
    destruct Ha as [Ha Hprod].
    pose proof (round53_large (js_sub page 1 * limit) ltac:(lia)) as [Hr _].
    unfold js_mul, js_number.
    destruct (Z.abs _ <? 2 ^ 1024).
    + cbn [MemStore.apply_skip]. apply skipn_all2. lia.
    + destruct (Z.ltb_spec (round53 (js_sub page 1 * limit)) 0); [lia|].
      reflexivity.
Qed.

Section Pages.

Variable matches : value -> value -> bool.
Variable apply_update : value -> value -> value.
Variables (filter : value) (search sort : nullable string)
  (sortOrder : nullable Z).
Variable docs : list value.

(** The matching documents, and the order the pages are cut from. *)
Let hits : list value :=
  List.filter (matches (effective_filter filter search)) docs.
Let ordered : list value :=
  MemStore.apply_sort (sort_spec sort sortOrder) hits.

Lemma run_page_on_memstore v limit page :
  run (MemStore.driver matches apply_update)
    (program v (IFindSmartPage filter search sort sortOrder limit page)) docs
  = MkSettled
      (inr (VObj [("total", VNum (Z.of_nat (List.length hits)));
                  ("items",
                   VArr (MemStore.apply_limit (VNum limit)
                           (MemStore.apply_skip
                              (js_mul (js_sub page 1) limit) ordered)))]))
      docs
      [Count (effective_filter filter search) VUndefined;
       Find (effective_filter filter search)
         (page_options sort sortOrder limit page)].
Proof.
  rewrite program_smart_page, run_findSmartPage. cbv zeta.
  cbn [MemStore.driver]. unfold MemStore.cursor at 2.
  rewrite page_options_limit, page_options_skip, page_options_sort_spec.
  reflexivity.
Qed.

Lemma ordered_length : List.length ordered = List.length hits.
Proof. apply Permutation_length, apply_sort_perm. Qed.

Lemma hits_length : (List.length hits <= List.length docs)%nat.
Proof. apply filter_length_le. Qed.

Lemma page_items v limit page :
  1 <= limit -> 1 <= page -> Z.of_nat (List.length docs) <= 2 ^ 53 ->
  items_of (result (run (MemStore.driver matches apply_update)
                      (program v (IFindSmartPage filter search sort sortOrder
                                    limit page)) docs))
  = firstn (Z.to_nat limit)
      (skipn (Z.to_nat ((page - 1) * limit)) ordered).
Proof.
  intros Hl Hp Hdocs. rewrite run_page_on_memstore.
  cbn [result items_of get assoc String.eqb Ascii.eqb Bool.eqb].
  rewrite skip_on_store
    by (try assumption; rewrite ordered_length; pose proof hits_length; lia).
  cbn [MemStore.apply_limit].
  destruct (limit =? 0) eqn:E; [apply Z.eqb_eq in E; lia|].
  rewrite Z.abs_eq by lia. reflexivity.
Qed.


End Pages.



(** X10. On an in-memory store of at most [2^53] documents a smart page
    with [pageSize >= 1] and [pageNumber >= 1] leaves the store unchanged,
    reports as total the number of documents matching the composed filter,
    and returns [min(pageSize, total - (pageNumber - 1) * pageSize)] items,
    none when the page lies beyond the last match; every item is a stored
    document matching the composed filter. *)
Theorem smart_page_size (v : variant) (matches : value -> value -> bool)
    (apply_update : value -> value -> value) (docs : list value)
    (filter : value) (search sort : nullable string) (sortOrder : nullable Z)
    (limit page : Z) :
  1 <= limit -> 1 <= page -> Z.of_nat (List.length docs) <= 2 ^ 53 ->
  let t := run (MemStore.driver matches apply_update)
             (program v (IFindSmartPage filter search sort sortOrder
                           limit page)) docs in
  let total :=
    Z.of_nat (List.length
                (List.filter (matches (effective_filter filter search)) docs)) in
  final t = docs /\
  total_of (result t) = Some total /\
  Z.of_nat (List.length (items_of (result t)))
  = Z.max 0 (Z.min limit (total - (page - 1) * limit)) /\
  Forall (fun doc => In doc docs /\
                     matches (effective_filter filter search) doc = true)
    (items_of (result t)).
Proof.
  intros Hl Hp Hdocs. cbv zeta.
  rewrite (page_items matches apply_update filter search sort sortOrder docs
             v limit page Hl Hp Hdocs).
  rewrite run_page_on_memstore. cbn [final result total_of get assoc
    String.eqb Ascii.eqb Bool.eqb].
  pose proof (apply_sort_perm (sort_spec sort sortOrder)
                (List.filter (matches (effective_filter filter search)) docs))
    as P.
  repeat split.
  - rewrite length_firstn, length_skipn, (Permutation_length P). nia.
  - rewrite Forall_forall. intros doc Hin.
    apply in_page in Hin.
    apply (Permutation_in doc P) in Hin. apply filter_In in Hin. exact Hin.
Qed.

Lemma smart_page_size_witness :
  1 <= 2 /\ 1 <= 2 /\
  Z.of_nat (List.length
              [sample_doc x01 "a"; sample_doc x02 "b"; sample_doc x03 "c"])
  <= 2 ^ 53 /\
  let t := run sample_driver
             (program SrcMinimonk
                (IFindSmartPage (VObj []) JNull JNull JNull 2 2))
             [sample_doc x01 "a"; sample_doc x02 "b"; sample_doc x03 "c"] in
  let total :=
    Z.of_nat (List.length
                (List.filter
                   ((fun _ _ : value => true) (effective_filter (VObj []) JNull))
                   [sample_doc x01 "a"; sample_doc x02 "b"; sample_doc x03 "c"])) in
  items_of (result t) = [sample_doc x03 "c"] /\
  final t = [sample_doc x01 "a"; sample_doc x02 "b"; sample_doc x03 "c"] /\
  total_of (result t) = Some total /\
  Z.of_nat (List.length (items_of (result t)))
  = Z.max 0 (Z.min 2 (total - (2 - 1) * 2)) /\
  Forall (fun doc =>
            In doc [sample_doc x01 "a"; sample_doc x02 "b"; sample_doc x03 "c"] /\
            (fun _ _ : value => true) (effective_filter (VObj []) JNull) doc
            = true)
    (items_of (result t)).
Proof.
  split; [lia|]. split; [lia|]. split; [cbn; lia|]. split; [reflexivity|].
  apply (smart_page_size SrcMinimonk (fun _ _ => true) (fun _ doc => doc)
           [sample_doc x01 "a"; sample_doc x02 "b"; sample_doc x03 "c"]
           (VObj []) JNull JNull JNull 2 2); cbn; lia.
Defined.

(** X11. On an in-memory store of at most [2^53] documents, with
    [pageSize >= 1], the items of pages 1 to n, one after the other, are
    the first [n * pageSize] matching documents in the requested order;
    once [n * pageSize] reaches the total, they are all the matching
    documents, each once (in stored order when no sort is requested). *)
Theorem pages_cover_matches (v : variant) (matches : value -> value -> bool)
    (apply_update : value -> value -> value) (docs : list value)
    (filter : value) (search sort : nullable string) (sortOrder : nullable Z)
    (limit : Z) (n : nat) :
  1 <= limit -> Z.of_nat (List.length docs) <= 2 ^ 53 ->
  let hits := List.filter (matches (effective_filter filter search)) docs in
  let pages :=
    flat_map
      (fun p =>
         items_of (result (run (MemStore.driver matches apply_update)
                             (program v (IFindSmartPage filter search sort
                                           sortOrder limit (Z.of_nat p)))
                             docs)))
      (seq 1 n) in
  pages = firstn (n * Z.to_nat limit)
            (MemStore.apply_sort (sort_spec sort sortOrder) hits) /\
  (Z.of_nat (List.length hits) <= Z.of_nat n * limit ->
     Permutation pages hits /\
     (sorting_requested sort sortOrder = false -> pages = hits)).
Proof.
  intros Hl Hdocs. cbv zeta.
  assert (cut : flat_map
      (fun p =>
         items_of (result (run (MemStore.driver matches apply_update)
                             (program v (IFindSmartPage filter search sort
                                           sortOrder limit (Z.of_nat p)))
                             docs)))
      (seq 1 n)
    = firstn (n * Z.to_nat limit)
        (MemStore.apply_sort (sort_spec sort sortOrder)
           (List.filter (matches (effective_filter filter search)) docs))).
  { induction n as [|n IH]; [reflexivity|].
    rewrite seq_S, flat_map_app, IH. cbn [flat_map]. rewrite app_nil_r.
    rewrite page_items by lia.
    replace (Z.to_nat ((Z.of_nat (1 + n) - 1) * limit))
      with (n * Z.to_nat limit)%nat by nia.
    rewrite <- firstn_plus. f_equal. lia. }
  split; [exact cut|].
  intros Hall. rewrite cut.
  pose proof (apply_sort_perm (sort_spec sort sortOrder)
                (List.filter (matches (effective_filter filter search)) docs))
    as P.
  rewrite firstn_all2 by (rewrite (Permutation_length P); nia).
  split; [exact P|].
  intros Hs. unfold sort_spec.
  destruct sort as [| |field]; try reflexivity;
    destruct sortOrder as [| |dir]; try reflexivity.
  rewrite Hs. reflexivity.
Qed.

Lemma pages_cover_matches_witness :
  1 <= 2 /\
  Z.of_nat (List.length
              [sample_doc x01 "a"; sample_doc x02 "b"; sample_doc x03 "c"])
  <= 2 ^ 53 /\
  let hits :=
    List.filter ((fun _ _ : value => true) (effective_filter (VObj []) JNull))
      [sample_doc x01 "a"; sample_doc x02 "b"; sample_doc x03 "c"] in
  let pages :=
    flat_map
      (fun p =>
         items_of (result (run sample_driver
                             (program Unnamed000
                                (IFindSmartPage (VObj []) JNull JNull JNull 2
                                   (Z.of_nat p)))
                             [sample_doc x01 "a"; sample_doc x02 "b";
                              sample_doc x03 "c"])))
      (seq 1 2) in
  pages = [sample_doc x01 "a"; sample_doc x02 "b"; sample_doc x03 "c"] /\
  pages = firstn (2 * Z.to_nat 2)
            (MemStore.apply_sort (sort_spec JNull JNull) hits) /\
  (Z.of_nat (List.length hits) <= Z.of_nat 2 * 2 ->
     Permutation pages hits /\
     (sorting_requested JNull JNull = false -> pages = hits)).
Proof.
  split; [lia|]. split; [cbn; lia|]. split; [reflexivity|].
  apply (pages_cover_matches Unnamed000 (fun _ _ => true) (fun _ doc => doc)
           [sample_doc x01 "a"; sample_doc x02 "b"; sample_doc x03 "c"]
           (VObj []) JNull JNull JNull 2 2); cbn; lia.
Defined.

(* ================================================================== *)
(** ** findAndMap *)
(* ================================================================== *)

Lemma run_then_map {S A : Type} (d : driver S) (r : request)
    (f : value -> A) (s : S) :
  run d (x <- await r ;; Ret (f x)) s
  = MkSettled
      (match fst (d r s) with inl e => inl e | inr x => inr (f x) end)
      (snd (d r s)) [r].
Proof. simpl. destruct (d r s) as [[e|x] s']; reflexivity. Qed.

Lemma findAndMap_body v filter key :
  findAndMap_of v filter key
  = (list <- await (Find filter (VStr key)) ;;
     Ret (js_map (member key) list)).
Proof. destruct v; reflexivity. Qed.

Lemma member_object key doc :
  is_object doc = true -> inherited key = false ->
  member key doc = Normal (get key doc).
Proof.
  destruct doc; try discriminate. intros _ Hk. cbn [member get].
  rewrite Hk. destruct (own_field key fields) eqn:Own; [reflexivity|].
  f_equal. induction fields as [|[k' x] rest IH]; [reflexivity|].
  cbn [own_field existsb fst] in Own. apply orb_false_elim in Own as [Hk' Hrest].
  cbn [assoc]. rewrite String.eqb_sym, Hk'. apply IH, Hrest.
Qed.

Lemma array_map_objects key docs :
  Forall (fun doc => is_object doc = true) docs -> inherited key = false ->
  array_map (member key) docs = Normal (map (get key) docs).
Proof.
  intros Hdocs Hk. induction Hdocs as [|doc rest Hdoc _ IH]; [reflexivity|].
  cbn [array_map map]. rewrite (member_object key doc Hdoc Hk), IH.
  reflexivity.
Qed.

(** X12. When the store answers [find(filter, key)] with an array of plain
    objects, [findAndMap(filter, key)] resolves with the array of their
    [key] fields, in the same order and of the same length, with
    [undefined] for a document that has no such field; it makes that one
    request, with the key as its options argument. *)
Theorem findAndMap_projects {S : Type} (d : driver S) (v : variant)
    (filter : value) (key : string) (s s' : S) (docs : list value) :
  d (Find filter (VStr key)) s = (inr (VArr docs), s') ->
  Forall (fun doc => is_object doc = true) docs ->
  inherited key = false ->
  let t := run d (findAndMap_of v filter key) s in
  issued t = [Find filter (VStr key)] /\
  final t = s' /\
  result t = inr (Normal (VArr (map (get key) docs))) /\
  (forall doc, has_field key doc = false -> get key doc = VUndefined).
Proof.
  intros E Hdocs Hk. cbv zeta. rewrite findAndMap_body, run_then_map, E.
  cbn [issued final result fst snd js_map].
  rewrite (array_map_objects key docs Hdocs Hk). repeat split.
  intros doc. destruct doc; try reflexivity. cbn [has_field get].
  induction fields as [|[k' x] rest IH]; [reflexivity|].
  cbn [existsb fst assoc]. intros H. apply orb_false_elim in H as [Hk' Hrest].
  rewrite String.eqb_sym, Hk'. apply IH, Hrest.
Qed.

Lemma findAndMap_projects_witness :
  sample_driver (Find (VObj []) (VStr "name"))
    [sample_doc x01 "a"; VObj [("_id", VNum 7)]; sample_doc x02 "b"]
  = (inr (VArr [sample_doc x01 "a"; VObj [("_id", VNum 7)]; sample_doc x02 "b"]),
     [sample_doc x01 "a"; VObj [("_id", VNum 7)]; sample_doc x02 "b"]) /\
  Forall (fun doc => is_object doc = true)
    [sample_doc x01 "a"; VObj [("_id", VNum 7)]; sample_doc x02 "b"] /\
  inherited "name" = false /\
  let t := run sample_driver (findAndMap_of SrcMinimonk (VObj []) "name")
             [sample_doc x01 "a"; VObj [("_id", VNum 7)]; sample_doc x02 "b"] in
  result t = inr (Normal (VArr [VStr "a"; VUndefined; VStr "b"])) /\
  issued t = [Find (VObj []) (VStr "name")] /\
  final t = [sample_doc x01 "a"; VObj [("_id", VNum 7)]; sample_doc x02 "b"] /\
  result t
  = inr (Normal (VArr (map (get "name")
                         [sample_doc x01 "a"; VObj [("_id", VNum 7)];
                          sample_doc x02 "b"]))) /\
  (forall doc, has_field "name" doc = false -> get "name" doc = VUndefined).
Proof.
  assert (Hdocs : Forall (fun doc => is_object doc = true)
            [sample_doc x01 "a"; VObj [("_id", VNum 7)]; sample_doc x02 "b"])
    by (repeat constructor).
  split; [reflexivity|]. split; [exact Hdocs|]. split; [reflexivity|].
  split; [reflexivity|].
  exact (findAndMap_projects sample_driver SrcMinimonk (VObj []) "name"
           [sample_doc x01 "a"; VObj [("_id", VNum 7)]; sample_doc x02 "b"]
           [sample_doc x01 "a"; VObj [("_id", VNum 7)]; sample_doc x02 "b"]
           [sample_doc x01 "a"; VObj [("_id", VNum 7)]; sample_doc x02 "b"]
           eq_refl Hdocs eq_refl).
Defined.

(** X13. [findAndMap] rejects with the store's error when [find] rejects,
    and with a [TypeError] when the store's answer is not an array or when,
    after plain objects only, the array holds [null] or [undefined]. *)
Theorem findAndMap_failures {S : Type} (d : driver S) (v : variant)
    (filter : value) (key : string) (s : S) :
  let t := run d (findAndMap_of v filter key) s in
  (forall e, fst (d (Find filter (VStr key)) s) = inl e -> result t = inl e) /\
  (forall answer, fst (d (Find filter (VStr key)) s) = inr answer ->
     (forall l, answer <> VArr l) -> result t = inr TypeError) /\
  (forall objects nothing rest,
     fst (d (Find filter (VStr key)) s)
     = inr (VArr (objects ++ nothing :: rest)) ->
     Forall (fun doc => is_object doc = true) objects ->
     inherited key = false ->
     nothing = VNull \/ nothing = VUndefined ->
     result t = inr TypeError).
Proof.
  cbv zeta. rewrite findAndMap_body, run_then_map. cbn [result].
  repeat split.
  - intros e ->. reflexivity.
  - intros answer -> Hno. destruct answer; try reflexivity.
    exfalso. exact (Hno items eq_refl).
  - intros objects nothing rest -> Hobj Hk Hn. cbn [js_map].
    assert (E : array_map (member key) (objects ++ nothing :: rest)
                = TypeError).
    { induction Hobj as [|doc more Hdoc _ IH].
      - destruct Hn as [-> | ->]; reflexivity.
      - cbn [app array_map]. rewrite (member_object key doc Hdoc Hk), IH.
        reflexivity. }
    rewrite E. reflexivity.
Qed.

(* ================================================================== *)
(** ** Page numbers below 1 *)
(* ================================================================== *)

Lemma low_page_skip (page limit : Z) :
  - 2 ^ 53 <= page -> page <= 0 -> 1 <= limit -> limit <= 2 ^ 53 ->
  exists skip,
    js_mul (js_sub page 1) limit = VNum skip /\ skip <= - limit /\ skip < 0.
Proof.
  intros Hlow Hp Hl Hmax. unfold js_mul, js_sub.
  assert (Ha : - 2 ^ 55 <= round53 (page - 1) <= -1).
  { destruct (Z.le_gt_cases (- 2 ^ 53) (page - 1)) as [Hx|Hx].
    - rewrite round53_exact by (rewrite Z.abs_neq; lia). lia.
    - pose proof (round53_small (page - 1) ltac:(lia)). lia. }
  set (a := round53 (page - 1)) in *.
  assert (Hprod : - 2 ^ 108 <= a * limit <= - limit).
  { change (2 ^ 108) with (2 ^ 55 * 2 ^ 53). nia. }
  assert (Hr : - 2 ^ 109 <= round53 (a * limit) <= - limit).
  { change (2 ^ 109) with (2 * 2 ^ 108).
    destruct (Z.le_gt_cases (- 2 ^ 53) (a * limit)) as [Hx|Hx].
    - rewrite round53_exact by (rewrite Z.abs_neq; lia). lia.
    - pose proof (round53_small (a * limit) ltac:(lia)). lia. }
  exists (round53 (a * limit)). split; [|lia].
  apply js_number_finite.
  assert (2 ^ 109 < 2 ^ 1024) by (apply Z.pow_lt_mono_r; lia).
  rewrite Z.abs_neq; lia.
Qed.

(** X14. [findSmartPage] neither rejects nor clamps a page number below 1:
    for a page number from [-2^53] to 0 and a page size from 1 to [2^53] it
    sends the store a negative skip offset, at most [- pageSize], together
    with the page size as limit. *)
Theorem smart_page_forwards_low_page {S : Type} (d : driver S) (v : variant)
    (filter : value) (search sort : nullable string) (sortOrder : nullable Z)
    (limit page : Z) (s : S) :
  - 2 ^ 53 <= page -> page <= 0 -> 1 <= limit -> limit <= 2 ^ 53 ->
  let t := run d (program v (IFindSmartPage filter search sort sortOrder
                               limit page)) s in
  (forall total s1,
     d (Count (effective_filter filter search) VUndefined) s = (inr total, s1) ->
     exists o, find_options (issued t) = [o]) /\
  (forall o, In o (find_options (issued t)) ->
     get "limit" o = VNum limit /\
     exists skip, get "skip" o = VNum skip /\ skip <= - limit /\ skip < 0).
Proof.
  intros Hlow Hp Hl Hmax. cbv zeta. rewrite program_smart_page.
  destruct (smart_page_find_options d v filter search sort sortOrder limit
              page s) as [Hall Hone].
  split.
  - intros total s1 E. eexists. exact (Hone total s1 E).
  - intros o Ho. rewrite (Hall o Ho), page_options_limit, page_options_skip.
    split; [reflexivity|]. apply low_page_skip; assumption.
Qed.

Lemma smart_page_forwards_low_page_witness :
  - 2 ^ 53 <= 0 /\ 0 <= 0 /\ 1 <= 10 /\ 10 <= 2 ^ 53 /\
  let t := run sample_driver
             (program SrcMinimonk
                (IFindSmartPage (VObj []) JNull JNull JNull 10 0))
             [sample_doc x01 "a"] in
  find_options (issued t) = [VObj [("skip", VNum (-10)); ("limit", VNum 10)]] /\
  (forall total s1,
     sample_driver (Count (effective_filter (VObj []) JNull) VUndefined)
       [sample_doc x01 "a"] = (inr total, s1) ->
     exists o, find_options (issued t) = [o]) /\
  (forall o, In o (find_options (issued t)) ->
     get "limit" o = VNum 10 /\
     exists skip, get "skip" o = VNum skip /\ skip <= - 10 /\ skip < 0).
Proof.
  split; [lia|]. split; [lia|]. split; [lia|]. split; [lia|].
  split; [reflexivity|].
  apply (smart_page_forwards_low_page sample_driver SrcMinimonk (VObj []) JNull
           JNull JNull 10 0 [sample_doc x01 "a"]); lia.
Defined.
